(** * quieter: volume reduction of OPL register logs (DOSBox DRO files)

    A shallow embedding of [quieter.py].  Python integers are [Z], the
    bitwise operators are [Z.land], [Z.lor] and [Z.lxor], [bytes] objects and
    file contents are [list byte], dictionaries are [gmap]s, Python lists are
    lists read and updated by index, and uncaught exceptions are the [Raise]
    results of a small exception monad. *)

From Stdlib Require Import ZArith Lia.
From Stdlib Require Import Strings.Byte.
From stdpp Require Import base option list gmap strings.

Local Open Scope Z_scope.

(** ** Exceptions *)

(** The exceptions the program can let escape: a failed dictionary lookup, a
    list or bytes index out of range, and a [struct] packing or unpacking
    failure. *)
Inductive exn : Type :=
  | KeyError (key : Z)
  | IndexError
  | struct_error.

Inductive result (A : Type) : Type :=
  | Return (a : A)
  | Raise (e : exn).
Arguments Return {A} a.
Arguments Raise {A} e.

(** Sequencing: an exception raised by the first computation escapes. *)
#[global] Instance result_bind : MBind result :=
  fun A B (k : A -> result B) (c : result A) =>
    match c with
    | Return a => k a
    | Raise e => Raise e
    end.

#[global] Instance result_ret : MRet result := @Return.

(** ** Python containers *)

(** Position of index [i] in a sequence of length [len]: negative indices
    count from the end, anything else out of range has no position. *)
Definition py_index (len i : Z) : option nat :=
  if bool_decide (0 <= i < len) then Some (Z.to_nat i)
  else if bool_decide (- len <= i < 0) then Some (Z.to_nat (len + i))
  else None.

(** [l[i]] *)
Definition getitem {A : Type} (l : list A) (i : Z) : result A :=
  match py_index (Z.of_nat (length l)) i with
  | Some n =>
      match l !! n with
      | Some x => Return x
      | None => Raise IndexError
      end
  | None => Raise IndexError
  end.

(** [l[i] = x] *)
Definition setitem {A : Type} (l : list A) (i : Z) (x : A) : result (list A) :=
  match py_index (Z.of_nat (length l)) i with
  | Some n => Return (<[n := x]> l)
  | None => Raise IndexError
  end.

(** [d[k]] on a dictionary with integer keys. *)
Definition dict_getitem {V : Type} (d : gmap Z V) (k : Z) : result V :=
  match d !! k with
  | Some v => Return v
  | None => Raise (KeyError k)
  end.

(** The integer a byte stands for, as [unpack('B', ...)] and indexing a
    [bytes] object give it. *)
Definition byte_to_Z (b : byte) : Z := Z.of_N (Byte.to_N b).

(** Bytes are compared through the integers they stand for. *)
#[global] Instance byte_eq_dec : EqDecision byte.
Proof.
  intros a b. destruct (decide (Byte.to_N a = Byte.to_N b)) as [E | E].
  - left. apply (f_equal Byte.of_N) in E. rewrite !Byte.of_to_N in E.
    congruence.
  - right. congruence.
Defined.

(** [pack('B', z)]: only 0..255 can be packed. *)
Definition pack_B (z : Z) : result byte :=
  if bool_decide (0 <= z <= 255) then
    match Byte.of_N (Z.to_N z) with
    | Some b => Return b
    | None => Raise struct_error
    end
  else Raise struct_error.

(** ** Module constants *)

Definition CARRIERS : list Z :=
  [0x43; 0x44; 0x45; 0x4B; 0x4C; 0x4D; 0x53; 0x54; 0x55].

Definition LEVEL_TO_ALGORITHM : gmap Z Z :=
  list_to_map
    [ (0x40, 0xC0); (0x41, 0xC0); (0x42, 0xC1); (0x43, 0xC1); (0x44, 0xC2);
      (0x45, 0xC2); (0x48, 0xC3); (0x49, 0xC3); (0x4A, 0xC4); (0x4B, 0xC4);
      (0x4C, 0xC5); (0x4D, 0xC5); (0x50, 0xC6); (0x51, 0xC6); (0x52, 0xC7);
      (0x53, 0xC7); (0x54, 0xC8); (0x55, 0xC8) ].

Definition HARDWARE_TYPES : gmap Z string :=
  list_to_map [ (0, "OPL2"%string); (1, "Dual OPL2"%string); (2, "OPL3"%string) ].

Definition FORMAT_TYPES : gmap Z string :=
  list_to_map
    [ (0, "Commands and data interleaved"%string); (1, "(unknown)"%string) ].

Definition COMPRESSION_TYPES : gmap Z string :=
  list_to_map [ (0, "No compression"%string) ].

(** ** class OPL2Quieter *)

Record OPL2Quieter : Type := mkOPL2Quieter {
  quiet_function : Z -> Z;
  registers : list Z
}.

(** [OPL2Quieter.__init__] *)
Definition OPL2Quieter_init (quiet_function : Z -> Z) : OPL2Quieter :=
  {| quiet_function := quiet_function; registers := replicate 0x100%nat 0x00 |}.

(** The value [OPL2Quieter.write] ends up with for [register], before it is
    stored: the body of the [if 0x40 <= register <= 0x55] statement. *)
Definition write_value (self : OPL2Quieter) (register value : Z) : result Z :=
  if bool_decide (0x40 <= register <= 0x55) then
    algorithm_register ← dict_getitem LEVEL_TO_ALGORITHM register;
    cell ← getitem (registers self) algorithm_register;
    let algorithm := Z.land cell 0x01 in
    let modify_level :=
      if bool_decide (algorithm = 0x00)
      then (if bool_decide (register ∈ CARRIERS) then true else false)
      else true in
    if modify_level then
      let ksl := Z.land value 0xC0 in
      let level := quiet_function self (Z.land value 0x3F) in
      Return (Z.lor ksl (Z.land level 0x3F))
    else Return value
  else Return value.

(** [OPL2Quieter.write]: the result, and the object afterwards (unchanged
    when an exception escapes before the store). *)
Definition write (self : OPL2Quieter) (register value : Z)
  : result (Z * Z) * OPL2Quieter :=
  match write_value self register value with
  | Raise e => (Raise e, self)
  | Return value' =>
      match setitem (registers self) register value' with
      | Raise e => (Raise e, self)
      | Return registers' =>
          (Return (register, value'),
           {| quiet_function := quiet_function self; registers := registers' |})
      end
  end.

(** ** The file header *)

(** The eleven fields of the 26-byte header, named as in [quieter_main]. *)
Record header : Type := mkHeader {
  cSignature : list byte;
  iVersionMajor : Z;
  iVersionMinor : Z;
  iLengthPairs : Z;
  iLengthMS : Z;
  iHardwareType : Z;
  iFormat : Z;
  iCompression : Z;
  iShortDelayCode : Z;
  iLongDelayCode : Z;
  iCodemapLength : Z
}.

(** An unsigned integer stored least significant byte first, the byte order
    of the hosts DOSBox logs are written and read on. *)
Definition le_uint (bs : list byte) : Z :=
  foldr (fun b acc => byte_to_Z b + 256 * acc) 0 bs.

Definition slice {A : Type} (start len : nat) (l : list A) : list A :=
  take len (drop start l).

(** [namedunpack(data, values, '8sHHIIBBBBBB')]: the format is 26 bytes long
    (no padding is needed, every field is aligned), and [unpack] refuses a
    buffer of any other length. *)
Definition namedunpack (data : list byte) : result header :=
  if bool_decide (length data = 26%nat) then
    Return {| cSignature := slice 0 8 data;
              iVersionMajor := le_uint (slice 8 2 data);
              iVersionMinor := le_uint (slice 10 2 data);
              iLengthPairs := le_uint (slice 12 4 data);
              iLengthMS := le_uint (slice 16 4 data);
              iHardwareType := le_uint (slice 20 1 data);
              iFormat := le_uint (slice 21 1 data);
              iCompression := le_uint (slice 22 1 data);
              iShortDelayCode := le_uint (slice 23 1 data);
              iLongDelayCode := le_uint (slice 24 1 data);
              iCodemapLength := le_uint (slice 25 1 data) |}
  else Raise struct_error.

(** [b'DBRAWOPL'] *)
Definition DBRAWOPL : list byte := String.list_byte_of_string "DBRAWOPL".

(** ** print_info *)

(** [range(n)] *)
Definition range (n : Z) : list Z := seqZ 0 n.

(** Inner loop of the codemap dump: [for m in range(cols)] at row [n],
    given as the list of the [m] still to visit. *)
Fixpoint print_info_cols (codemap : list byte) (entries rows n : Z)
    (ms : list Z) : result unit :=
  match ms with
  | [] => Return tt
  | m :: ms' =>
      let l := n + m * rows in
      if bool_decide (l > entries) then Return tt
      else
        r ← getitem codemap l;
        print_info_cols codemap entries rows n ms'
  end.

(** Outer loop of the codemap dump: [for n in range(rows)]. *)
Fixpoint print_info_rows (codemap : list byte) (entries rows cols : Z)
    (ns : list Z) : result unit :=
  match ns with
  | [] => Return tt
  | n :: ns' =>
      _ ← print_info_cols codemap entries rows n (range cols);
      print_info_rows codemap entries rows cols ns'
  end.

(** [print_info], as far as the rest of the program can observe it: what is
    printed is not modelled, the exceptions of the dictionary and codemap
    lookups are.  [os.stat] is taken to succeed on the input file, which was
    opened just before. *)
Definition print_info (data : header) (codemap : list byte) (verbose : bool)
  : result unit :=
  _ ← dict_getitem HARDWARE_TYPES (iHardwareType data);
  _ ← dict_getitem FORMAT_TYPES (iFormat data);
  _ ← dict_getitem COMPRESSION_TYPES (iCompression data);
  if negb verbose then Return tt
  else
    let entries := iCodemapLength data - 1 in
    let cols := 6 in
    (* ceil(entries / cols) *)
    let rows := - ((- entries) `div` cols) in
    print_info_rows codemap entries rows cols (range rows).

(** [print_info] with what its codemap dump prints: the pairs [(l, r)] of
    the calls [print('0x{:02X}: 0x{:02X}   '.format(l, r), end='')], in the
    order of printing (the line ends between the rows are left out), and the
    outcome.  [dump_cols] is the inner loop at row [n], [dump_rows] the outer
    loop.  A [break] ends the row; a failed lookup [codemap[l]] ends the
    dump with its exception, after what was printed before it. *)
Fixpoint dump_cols (codemap : list byte) (entries rows n : Z) (ms : list Z)
  : list (Z * Z) * result unit :=
  match ms with
  | [] => ([], Return tt)
  | m :: ms' =>
      let l := n + m * rows in
      if bool_decide (l > entries) then ([], Return tt)
      else
        match getitem codemap l with
        | Raise e => ([], Raise e)
        | Return r =>
            let rest := dump_cols codemap entries rows n ms' in
            ((l, byte_to_Z r) :: fst rest, snd rest)
        end
  end.

Fixpoint dump_rows (codemap : list byte) (entries rows cols : Z)
    (ns : list Z) : list (Z * Z) * result unit :=
  match ns with
  | [] => ([], Return tt)
  | n :: ns' =>
      let row := dump_cols codemap entries rows n (range cols) in
      match snd row with
      | Raise e => (fst row, Raise e)
      | Return _ =>
          let rest := dump_rows codemap entries rows cols ns' in
          (fst row ++ fst rest, snd rest)
      end
  end.

Definition print_info_dump (data : header) (codemap : list byte)
    (verbose : bool) : list (Z * Z) * result unit :=
  let lookups : result unit :=
    _ ← dict_getitem HARDWARE_TYPES (iHardwareType data);
    _ ← dict_getitem FORMAT_TYPES (iFormat data);
    _ ← dict_getitem COMPRESSION_TYPES (iCompression data);
    Return tt in
  match lookups with
  | Raise e => ([], Raise e)
  | Return _ =>
      if negb verbose then ([], Return tt)
      else
        let entries := iCodemapLength data - 1 in
        let cols := 6 in
        (* ceil(entries / cols) *)
        let rows := - ((- entries) `div` cols) in
        dump_rows codemap entries rows cols (range rows)
  end.

(** ** quieter_main *)

(** The quieter object [quieter_main] builds from its [level] argument. *)
Definition main_quieter (level : Z) : OPL2Quieter :=
  OPL2Quieter_init (fun level => Z.max (level - level) 0).

(** [pack('BB', orig_reg, val)] *)
Definition pack_BB (orig_reg val : Z) : result (list byte) :=
  a ← pack_B orig_reg;
  b ← pack_B val;
  Return [a; b].

(** One turn of the [while] loop of [quieter_main], from the unpacking of the
    two bytes read to the pair written to the output file: the bytes written
    and the quieter object afterwards. *)
Definition loop_body (short_delay long_delay : Z) (codemap : list byte)
    (quieter : OPL2Quieter) (chunk0 chunk1 : byte)
  : result (list byte) * OPL2Quieter :=
  let reg := byte_to_Z chunk0 in
  let val := byte_to_Z chunk1 in
  let orig_reg := reg in
  let reg := if bool_decide (Z.land reg 0x80 ≠ 0) then Z.lxor reg 0x80 else reg in
  let lookup : result (Z * bool) :=
    if bool_decide (reg = short_delay) then Return (reg, true)
    else if bool_decide (reg = long_delay) then Return (reg, true)
    else
      r ← getitem codemap reg;
      Return (byte_to_Z r, false) in
  match lookup with
  | Raise e => (Raise e, quieter)
  | Return (reg, skip_quieter) =>
      if skip_quieter then (pack_BB orig_reg val, quieter)
      else
        match write quieter reg val with
        | (Raise e, quieter') => (Raise e, quieter')
        | (Return (reg, val), quieter') => (pack_BB orig_reg val, quieter')
        end
  end.

(** The [while pairsRead < pairsTotal] loop.  [infile] is what is left to
    read of the input file, [outfile] what has been written to the output
    file.  An empty read leaves the loop, a read of a single byte makes
    [unpack('BB', chunk)] fail. *)
Fixpoint pairs_loop (short_delay long_delay : Z) (codemap : list byte)
    (pairsTotal : Z) (infile : list byte) (pairsRead : Z)
    (quieter : OPL2Quieter) (outfile : list byte) {struct infile}
  : result unit * OPL2Quieter * list byte :=
  if bool_decide (pairsRead < pairsTotal) then
    match infile with
    | [] => (Return tt, quieter, outfile)
    | [_] => (Raise struct_error, quieter, outfile)
    | chunk0 :: chunk1 :: infile' =>
        match loop_body short_delay long_delay codemap quieter chunk0 chunk1 with
        | (Raise e, quieter') => (Raise e, quieter', outfile)
        | (Return packed, quieter') =>
            pairs_loop short_delay long_delay codemap pairsTotal infile'
              (pairsRead + 1) quieter' (outfile ++ packed)
        end
    end
  else (Return tt, quieter, outfile).

(** The reason returned for a header with another signature. *)
Definition not_a_valid_dro : string :=
  "input file is not a valid DOSBox DRO file.".

(** [quieter_main], from the point where both files are open (the checks on
    the paths before that concern the file system only).  [infile] is the
    content of the input file.  The result is the returned tuple (exit code
    and reason) or the exception that escaped, together with what was written
    to the output file. *)
Definition quieter_main (infile : list byte) (verbose : bool) (level : Z)
  : result (Z * option string) * list byte :=
  let chunk := take 26 infile in
  let infile := drop 26 infile in
  match namedunpack chunk with
  | Raise e => (Raise e, [])
  | Return data =>
      let short_delay := iShortDelayCode data in
      let long_delay := iLongDelayCode data in
      let outfile := chunk in
      if bool_decide (cSignature data ≠ DBRAWOPL) then
        (Return (1, Some not_a_valid_dro), outfile)
      else
        let codemap := take (Z.to_nat (iCodemapLength data)) infile in
        let infile := drop (Z.to_nat (iCodemapLength data)) infile in
        let outfile := outfile ++ codemap in
        match print_info data codemap verbose with
        | Raise e => (Raise e, outfile)
        | Return _ =>
            let pairsTotal := iLengthPairs data in
            let pairsRead := 0 in
            let quieter := main_quieter level in
            match
              pairs_loop short_delay long_delay codemap pairsTotal
                infile pairsRead quieter outfile
            with
            | (Raise e, _, outfile) => (Raise e, outfile)
            | (Return _, _, outfile) => (Return (0, None), outfile)
            end
        end
  end.

(** ** Sample files *)

(** A header announcing [pairs] pairs (fewer than 256), short delay code 0,
    long delay code 1 and a codemap of three entries; version 2.0, OPL2. *)
Definition sample_header (pairs : byte) : list byte :=
  DBRAWOPL ++
  [x02; x00; x00; x00; pairs; x00; x00; x00; x10; x00; x00; x00;
   x00; x00; x00; x00; x01; x03].

(** Compact index 2 stands for register 0x43, a carrier. *)
Definition sample_codemap : list byte := [x20; x20; x43].

(** One pair: value 0x25 for the carrier level register 0x43. *)
Definition carrier_file : list byte :=
  sample_header x01 ++ sample_codemap ++ [x02; x25].

(** Two pairs announced; a short delay, then a single byte. *)
Definition odd_file : list byte :=
  sample_header x02 ++ sample_codemap ++ [x00; x10; x00].

(** Two pairs announced, one pair present. *)
Definition short_file : list byte :=
  sample_header x02 ++ sample_codemap ++ [x00; x10].

(** A codemap of seven entries and the fields of a header that announces
    it. *)
Definition seven_codemap : list byte := [x20; x21; x22; x23; x24; x25; x43].

Definition seven_header : header :=
  {| cSignature := DBRAWOPL; iVersionMajor := 2; iVersionMinor := 0;
     iLengthPairs := 0; iLengthMS := 0; iHardwareType := 0; iFormat := 0;
     iCompression := 0; iShortDelayCode := 0x7A; iLongDelayCode := 0x7B;
     iCodemapLength := 7 |}.

(** Fourteen bytes that are no DRO header. *)
Definition not_a_dro : list byte := String.list_byte_of_string "NOT A DRO FILE".

(** * Properties *)

(** ** Bytes and packing *)

Lemma byte_to_Z_range (b : byte) : 0 <= byte_to_Z b <= 255.
Proof.
  unfold byte_to_Z. pose proof (Byte.to_N_bounded b). lia.
Qed.

Lemma pack_B_byte (b : byte) : pack_B (byte_to_Z b) = Return b.
Proof.
  unfold pack_B. rewrite bool_decide_eq_true_2 by apply byte_to_Z_range.
  unfold byte_to_Z. rewrite N2Z.id, Byte.of_to_N. reflexivity.
Qed.

Lemma pack_B_inv (z : Z) (b : byte) : pack_B z = Return b -> byte_to_Z b = z.
Proof.
  unfold pack_B. case_bool_decide as Hz; [|discriminate].
  destruct (Byte.of_N (Z.to_N z)) as [b'|] eqn:E; [|discriminate].
  intros [= <-]. apply Byte.to_of_N in E. unfold byte_to_Z. rewrite E. lia.
Qed.

Lemma pack_BB_bytes (a b : byte) :
  pack_BB (byte_to_Z a) (byte_to_Z b) = Return [a; b].
Proof.
  unfold pack_BB. rewrite !pack_B_byte. reflexivity.
Qed.

(** Clearing the bank flag as the loop does it is masking with 0x7F. *)
Lemma masked_register (b : byte) :
  (if bool_decide (Z.land (byte_to_Z b) 0x80 ≠ 0)
   then Z.lxor (byte_to_Z b) 0x80 else byte_to_Z b)
  = Z.land (byte_to_Z b) 0x7F.
Proof.
  destruct b; vm_compute; reflexivity.
Qed.

(** ** Indexing *)

Lemma py_index_in_range (len i : Z) :
  0 <= i < len -> py_index len i = Some (Z.to_nat i).
Proof.
  intros H. unfold py_index. rewrite bool_decide_eq_true_2; done.
Qed.

Lemma getitem_lookup {A : Type} (l : list A) (i : Z) (x : A) :
  0 <= i -> l !! Z.to_nat i = Some x -> getitem l i = Return x.
Proof.
  intros Hi Hx. unfold getitem.
  pose proof (lookup_lt_Some _ _ _ Hx) as Hlt.
  rewrite py_index_in_range by lia. rewrite Hx. reflexivity.
Qed.

Lemma setitem_in_range {A : Type} (l : list A) (i : Z) (x : A) :
  0 <= i < Z.of_nat (length l) ->
  setitem l i x = Return (<[Z.to_nat i := x]> l).
Proof.
  intros H. unfold setitem. rewrite py_index_in_range; done.
Qed.

(** ** The level table *)

(** The level registers without an entry in [LEVEL_TO_ALGORITHM]. *)
Lemma unmapped_level_registers (register : Z) :
  0x40 <= register <= 0x55 ->
  LEVEL_TO_ALGORITHM !! register = None ->
  register ∈ [0x46; 0x47; 0x4E; 0x4F].
Proof.
  intros Hr.
  assert (Hcases : register ∈ seqZ 0x40 22) by (apply elem_of_seqZ; lia).
  clear Hr. vm_compute seqZ in Hcases.
  repeat (apply elem_of_cons in Hcases as [-> | Hcases];
          [ first [ vm_compute; discriminate | intros _; set_solver ] | ]).
  inversion Hcases.
Qed.

Lemma mapped_algorithm_register (register algorithm_register : Z) :
  LEVEL_TO_ALGORITHM !! register = Some algorithm_register ->
  0x40 <= register <= 0x55 /\ 0xC0 <= algorithm_register <= 0xC8.
Proof.
  unfold LEVEL_TO_ALGORITHM. intros H.
  apply elem_of_list_to_map_2 in H.
  repeat (apply elem_of_cons in H as [[= -> ->] | H]; [lia|]).
  inversion H.
Qed.

(** ** The attenuation function of the program *)

(** The function [quieter_main] hands to the quieter object does not depend
    on the configured level: its parameter hides it. *)
Lemma main_quieter_quiet_function (level l : Z) :
  quiet_function (main_quieter level) l = 0.
Proof.
  simpl. lia.
Qed.

(** ** Bits of an adjusted value *)

Lemma ksl_bits_kept (value level : Z) :
  Z.land (Z.lor (Z.land value 0xC0) (Z.land level 0x3F)) 0xC0
  = Z.land value 0xC0.
Proof.
  rewrite Z.land_lor_distr_l, <- !Z.land_assoc.
  change (Z.land 0xC0 0xC0) with 0xC0. change (Z.land 0x3F 0xC0) with 0.
  rewrite Z.land_0_r, Z.lor_0_r. reflexivity.
Qed.

Lemma write_value_ksl (self : OPL2Quieter) (register value value' : Z) :
  write_value self register value = Return value' ->
  Z.land value' 0xC0 = Z.land value 0xC0.
Proof.
  unfold write_value. case_bool_decide; [|congruence].
  destruct (dict_getitem LEVEL_TO_ALGORITHM register) as [a|]; [|discriminate].
  cbn. destruct (getitem (registers self) a) as [cell|]; [|discriminate].
  cbn. repeat case_bool_decide; intros [= <-];
    first [ apply ksl_bits_kept | reflexivity ].
Qed.

(** ** OPL2Quieter.write *)

Lemma OPL2Quieter_init_length (f : Z -> Z) :
  length (registers (OPL2Quieter_init f)) = 256%nat.
Proof.
  reflexivity.
Qed.

(** What a call that returns has done. *)
Lemma write_inv (self self' : OPL2Quieter) (register value register' value' : Z) :
  write self register value = (Return (register', value'), self') ->
  register' = register /\
  write_value self register value = Return value' /\
  setitem (registers self) register value' = Return (registers self') /\
  quiet_function self' = quiet_function self.
Proof.
  unfold write.
  destruct (write_value self register value) as [v|]; [|discriminate].
  destruct (setitem (registers self) register v) as [regs|] eqn:Hset;
    [|discriminate].
  intros [= <- <- <-]. rewrite Hset. repeat split; reflexivity.
Qed.

(** The bank keeps its 256 cells. *)
Lemma write_length (self : OPL2Quieter) (register value : Z) :
  length (registers (snd (write self register value)))
  = length (registers self).
Proof.
  unfold write.
  destruct (write_value self register value) as [v|]; [|reflexivity].
  unfold setitem.
  destruct (py_index _ register) as [n|]; [|reflexivity].
  cbn. apply length_insert.
Qed.

(** A register that is not a level register: the value is stored as it is. *)
Lemma write_non_level (self : OPL2Quieter) (register value : Z) :
  0 <= register < Z.of_nat (length (registers self)) ->
  ¬ (0x40 <= register <= 0x55) ->
  write self register value =
    (Return (register, value),
     {| quiet_function := quiet_function self;
        registers := <[Z.to_nat register := value]> (registers self) |}).
Proof.
  intros Hr Hlevel. unfold write, write_value.
  rewrite bool_decide_eq_false_2 by done.
  rewrite setitem_in_range by done. reflexivity.
Qed.

(** A level register whose level is modified: additive synthesis, or a
    carrier. *)
Lemma write_modified (self : OPL2Quieter)
    (register value algorithm_register cell : Z) :
  length (registers self) = 256%nat ->
  LEVEL_TO_ALGORITHM !! register = Some algorithm_register ->
  registers self !! Z.to_nat algorithm_register = Some cell ->
  Z.land cell 0x01 ≠ 0 \/ register ∈ CARRIERS ->
  let value' :=
    Z.lor (Z.land value 0xC0)
          (Z.land (quiet_function self (Z.land value 0x3F)) 0x3F) in
  write self register value =
    (Return (register, value'),
     {| quiet_function := quiet_function self;
        registers := <[Z.to_nat register := value']> (registers self) |}).
Proof.
  intros Hlen Hmap Hcell Hmod value'.
  destruct (mapped_algorithm_register _ _ Hmap) as [Hr Ha].
  unfold write, write_value.
  rewrite bool_decide_eq_true_2 by done.
  unfold dict_getitem. rewrite Hmap. cbn.
  rewrite (getitem_lookup _ _ cell) by (done || lia). cbn.
  assert (Hflag :
    (if bool_decide (Z.land cell 1 = 0)
     then if bool_decide (register ∈ CARRIERS) then true else false
     else true) = true).
  { destruct Hmod as [Hadd | Hcar].
    - rewrite bool_decide_eq_false_2; done.
    - rewrite (bool_decide_eq_true_2 (register ∈ CARRIERS)) by done.
      case_bool_decide; reflexivity. }
  rewrite Hflag. fold value'.
  rewrite setitem_in_range by (rewrite Hlen; lia). reflexivity.
Qed.

(** C4: every register of 0x40..0x55 without an entry in the level table is
    one of 0x46, 0x47, 0x4E, 0x4F, and [write] on it raises the lookup error
    of the table ([KeyError], the UnmappedLevelRegister failure): no pair is
    returned and the object, its bank included, is left as it was. *)
Theorem write_unmapped_level_register
    (self : OPL2Quieter) (register value : Z) :
  0x40 <= register <= 0x55 ->
  LEVEL_TO_ALGORITHM !! register = None ->
  register ∈ [0x46; 0x47; 0x4E; 0x4F] /\
  write self register value = (Raise (KeyError register), self).
Proof.
  intros Hr Hmap. split.
  - by apply unmapped_level_registers.
  - unfold write, write_value.
    rewrite bool_decide_eq_true_2 by done.
    unfold dict_getitem. rewrite Hmap. reflexivity.
Qed.

Lemma write_unmapped_level_register_witness :
  0x40 <= 0x46 <= 0x55 /\
  LEVEL_TO_ALGORITHM !! 0x46 = None /\
  (0x46 ∈ [0x46; 0x47; 0x4E; 0x4F] /\
   write (main_quieter 5) 0x46 0x25 = (Raise (KeyError 0x46), main_quieter 5)).
Proof.
  split; [lia|]. split; [reflexivity|].
  apply (write_unmapped_level_register (main_quieter 5) 0x46 0x25);
    [lia | reflexivity].
Defined.

(** The four registers named by the table's gaps are level registers and
    have no entry. *)
Lemma unmapped_level_registers_absent (register : Z) :
  register ∈ [0x46; 0x47; 0x4E; 0x4F] ->
  0x40 <= register <= 0x55 /\ LEVEL_TO_ALGORITHM !! register = None.
Proof.
  intros H.
  repeat (apply elem_of_cons in H as [-> | H]; [split; [lia | reflexivity]|]).
  inversion H.
Qed.

(** C6: for a level register with an entry in the table, when the lowest bit
    of the bank cell of its algorithm register is 0 and the register is no
    carrier, [write] returns the register and the value as given and stores
    that value in the bank. *)
Theorem write_fm_modulator_untouched (self : OPL2Quieter)
    (register value algorithm_register cell : Z) :
  length (registers self) = 256%nat ->
  LEVEL_TO_ALGORITHM !! register = Some algorithm_register ->
  registers self !! Z.to_nat algorithm_register = Some cell ->
  Z.land cell 0x01 = 0 ->
  register ∉ CARRIERS ->
  write self register value =
    (Return (register, value),
     {| quiet_function := quiet_function self;
        registers := <[Z.to_nat register := value]> (registers self) |}) /\
  registers (snd (write self register value)) !! Z.to_nat register = Some value.
Proof.
  intros Hlen Hmap Hcell Hfm Hmodulator.
  destruct (mapped_algorithm_register _ _ Hmap) as [Hr Ha].
  assert (Hw : write self register value =
    (Return (register, value),
     {| quiet_function := quiet_function self;
        registers := <[Z.to_nat register := value]> (registers self) |})).
  { unfold write, write_value.
    rewrite bool_decide_eq_true_2 by done.
    unfold dict_getitem. rewrite Hmap. cbn.
    rewrite (getitem_lookup _ _ cell) by (done || lia). cbn.
    rewrite (bool_decide_eq_true_2 (Z.land cell 1 = 0)) by done.
    rewrite (bool_decide_eq_false_2 (register ∈ CARRIERS)) by done.
    rewrite setitem_in_range by (rewrite Hlen; lia). reflexivity. }
  split; [exact Hw|].
  rewrite Hw. cbn. apply list_lookup_insert_eq. rewrite Hlen. lia.
Qed.

Lemma write_fm_modulator_untouched_witness :
  write (main_quieter 5) 0x42 0x25 =
    (Return (0x42, 0x25),
     {| quiet_function := quiet_function (main_quieter 5);
        registers := <[Z.to_nat 0x42 := 0x25]> (registers (main_quieter 5)) |}) /\
  registers (snd (write (main_quieter 5) 0x42 0x25)) !! Z.to_nat 0x42 = Some 0x25.
Proof.
  apply (write_fm_modulator_untouched (main_quieter 5) 0x42 0x25 0xC1 0).
  - reflexivity.
  - reflexivity.
  - reflexivity.
  - reflexivity.
  - apply (bool_decide_unpack _). vm_compute. exact I.
Defined.

(** Under the attenuation function of the program every modified level has
    its low six bits cleared, whatever the configured level and the state of
    the bank. *)
Lemma main_quieter_write_modified (level : Z) (bank : list Z)
    (register value algorithm_register cell : Z) :
  length bank = 256%nat ->
  LEVEL_TO_ALGORITHM !! register = Some algorithm_register ->
  bank !! Z.to_nat algorithm_register = Some cell ->
  Z.land cell 0x01 ≠ 0 \/ register ∈ CARRIERS ->
  fst (write {| quiet_function := quiet_function (main_quieter level);
                registers := bank |} register value)
  = Return (register, Z.land value 0xC0).
Proof.
  intros Hlen Hmap Hcell Hmod.
  rewrite (write_modified _ register value algorithm_register cell) by done.
  cbn [fst quiet_function main_quieter OPL2Quieter_init].
  rewrite Z.sub_diag, Z.max_id, Z.land_0_l, Z.lor_0_r. reflexivity.
Qed.

(** C1: the adjusted value of a modified level does not follow the
    configured reduction.  On a fresh bank the carrier level register 0x43
    is modified, and whatever [level] is, the result is the value with its
    low six bits cleared; for value 0x25 and level 5 the program gives 0x00
    where the stated formula gives 0x20. *)
Theorem main_quieter_level_unused :
  (forall level value : Z,
     fst (write (main_quieter level) 0x43 value)
     = Return (0x43, Z.land value 0xC0)) /\
  fst (write (main_quieter 5) 0x43 0x25) = Return (0x43, 0x00) /\
  Z.lor (Z.land 0x25 0xC0) (Z.land (Z.max (Z.land 0x25 0x3F - 5) 0) 0x3F)
  = 0x20.
Proof.
  split; [|split; reflexivity].
  intros level value.
  rewrite (write_modified (main_quieter level) 0x43 value 0xC1 0).
  - cbn [fst]. rewrite main_quieter_quiet_function.
    rewrite Z.land_0_l, Z.lor_0_r. reflexivity.
  - reflexivity.
  - reflexivity.
  - reflexivity.
  - right. apply (bool_decide_unpack _). vm_compute. exact I.
Qed.

(** ** One turn of the loop *)

(** The bank keeps its 256 cells over a turn of the loop. *)
Lemma loop_body_length (short_delay long_delay : Z) (codemap : list byte)
    (quieter : OPL2Quieter) (chunk0 chunk1 : byte) :
  length (registers
            (snd (loop_body short_delay long_delay codemap quieter chunk0 chunk1)))
  = length (registers quieter).
Proof.
  unfold loop_body. rewrite masked_register.
  repeat case_bool_decide; try reflexivity.
  destruct (getitem codemap _) as [r|]; [|reflexivity]. cbn.
  pose proof (write_length quieter (byte_to_Z r) (byte_to_Z chunk1)) as Hlen.
  destruct (write quieter (byte_to_Z r) (byte_to_Z chunk1)) as [[[reg val]|e] q'];
    exact Hlen.
Qed.

(** C7: a pair whose register byte, masked with 0x7F, is the short or the
    long delay code is written out as it was read, both bytes, whatever the
    quieter object (its attenuation function and its bank) and whatever the
    codemap, which is not consulted (it may be empty, or have an entry at
    that index); the quieter object is left as it was. *)
Theorem loop_body_delay (short_delay long_delay : Z) (codemap : list byte)
    (quieter : OPL2Quieter) (chunk0 chunk1 : byte) :
  Z.land (byte_to_Z chunk0) 0x7F = short_delay \/
  Z.land (byte_to_Z chunk0) 0x7F = long_delay ->
  loop_body short_delay long_delay codemap quieter chunk0 chunk1
  = (Return [chunk0; chunk1], quieter).
Proof.
  intros Hdelay. unfold loop_body. rewrite masked_register.
  destruct (decide (Z.land (byte_to_Z chunk0) 0x7F = short_delay)) as [Hs | Hs].
  - rewrite bool_decide_eq_true_2 by done. cbn. by rewrite pack_BB_bytes.
  - rewrite bool_decide_eq_false_2 by done.
    destruct Hdelay as [Hd | Hd]; [done|].
    rewrite bool_decide_eq_true_2 by done. cbn. by rewrite pack_BB_bytes.
Qed.

Lemma loop_body_delay_witness :
  (Z.land (byte_to_Z x00) 0x7F = 0 \/ Z.land (byte_to_Z x00) 0x7F = 1) /\
  [x43; x43; x43] !! 0%nat = Some x43 /\
  loop_body 0 1 [x43; x43; x43] (main_quieter 5) x00 x25
  = (Return [x00; x25], main_quieter 5).
Proof.
  split; [left; reflexivity|]. split; [reflexivity|].
  apply (loop_body_delay 0 1 [x43; x43; x43] (main_quieter 5) x00 x25).
  left. reflexivity.
Defined.

(** C8: whenever a turn of the loop writes a pair, the register byte is the
    one read and the top two bits of the value byte are those of the value
    read, whatever the attenuation function of the quieter object returns
    (the low six bits of its result are all that is used). *)
Theorem loop_body_keeps_ksl (short_delay long_delay : Z) (codemap : list byte)
    (quieter quieter' : OPL2Quieter) (chunk0 chunk1 : byte)
    (packed : list byte) :
  loop_body short_delay long_delay codemap quieter chunk0 chunk1
  = (Return packed, quieter') ->
  exists out : byte,
    packed = [chunk0; out] /\
    Z.land (byte_to_Z out) 0xC0 = Z.land (byte_to_Z chunk1) 0xC0.
Proof.
  unfold loop_body. rewrite masked_register.
  assert (Hskip : forall q : OPL2Quieter,
    (pack_BB (byte_to_Z chunk0) (byte_to_Z chunk1), q) = (Return packed, quieter') ->
    exists out : byte,
      packed = [chunk0; out] /\
      Z.land (byte_to_Z out) 0xC0 = Z.land (byte_to_Z chunk1) 0xC0).
  { intros q. rewrite pack_BB_bytes. intros [= <- _]. by exists chunk1. }
  repeat case_bool_decide; cbn; try apply Hskip.
  destruct (getitem codemap _) as [r|]; [|discriminate]. cbn.
  destruct (write quieter (byte_to_Z r) (byte_to_Z chunk1))
    as [[[reg val]|e] q'] eqn:Hw; [|discriminate].
  apply write_inv in Hw as (_ & Hval & _ & _).
  apply write_value_ksl in Hval.
  unfold pack_BB. rewrite pack_B_byte. cbn.
  destruct (pack_B val) as [out|] eqn:Hout; [|discriminate]. cbn.
  intros [= <- _]. exists out. split; [reflexivity|].
  apply pack_B_inv in Hout. by rewrite Hout.
Qed.

Lemma loop_body_keeps_ksl_witness :
  loop_body 0 1 sample_codemap (OPL2Quieter_init (fun _ => 200)) x02 xe5
  = (Return [x02; xc8],
     {| quiet_function := fun _ => 200;
        registers := <[0x43%nat := 0xc8]> (replicate 0x100%nat 0) |}) /\
  exists out : byte,
    [x02; xc8] = [x02; out] /\
    Z.land (byte_to_Z out) 0xC0 = Z.land (byte_to_Z xe5) 0xC0.
Proof.
  split; [reflexivity|].
  apply (loop_body_keeps_ksl 0 1 sample_codemap
           (OPL2Quieter_init (fun _ => 200))
           {| quiet_function := fun _ => 200;
              registers := <[0x43%nat := 0xc8]> (replicate 0x100%nat 0) |}
           x02 xe5 [x02; xc8]).
  reflexivity.
Defined.

(** The pair of the C3 counterexample is modified under the attenuation
    function the documentation describes as well. *)
Example translated_register_modified_level_5 :
  fst (loop_body 0 1 sample_codemap
         (OPL2Quieter_init (fun l => Z.max (l - 5) 0)) x02 x25)
  = Return [x02; x20].
Proof.
  reflexivity.
Qed.

(** C3, counterexample: with codemap [0x20, 0x20, 0x43] and delay codes 0 and
    1, the pair (0x02, 0x25) has masked register 2, outside 0x40..0x55 and
    no delay code, and is written out with value 0x00. *)
Lemma masked_register_passthrough_fails :
  ¬ (0x40 <= Z.land (byte_to_Z x02) 0x7F <= 0x55) /\
  Z.land (byte_to_Z x02) 0x7F ≠ 0 /\
  Z.land (byte_to_Z x02) 0x7F ≠ 1 /\
  fst (loop_body 0 1 sample_codemap (main_quieter 5) x02 x25)
  = Return [x02; x00] /\
  x00 ≠ x25.
Proof.
  change (Z.land (byte_to_Z x02) 0x7F) with 2.
  split; [lia|]. split; [lia|]. split; [lia|].
  split; [reflexivity | discriminate].
Qed.

(** C3, amended: a pair whose masked register is no delay code and whose
    register after codemap translation is outside 0x40..0x55 is written out
    with both bytes as read, whatever the attenuation function; its value is
    stored in the bank cell of the translated register. *)
Theorem loop_body_non_level (short_delay long_delay : Z) (codemap : list byte)
    (quieter : OPL2Quieter) (chunk0 chunk1 r : byte) :
  length (registers quieter) = 256%nat ->
  Z.land (byte_to_Z chunk0) 0x7F ≠ short_delay ->
  Z.land (byte_to_Z chunk0) 0x7F ≠ long_delay ->
  codemap !! Z.to_nat (Z.land (byte_to_Z chunk0) 0x7F) = Some r ->
  ¬ (0x40 <= byte_to_Z r <= 0x55) ->
  loop_body short_delay long_delay codemap quieter chunk0 chunk1
  = (Return [chunk0; chunk1],
     {| quiet_function := quiet_function quieter;
        registers :=
          <[Z.to_nat (byte_to_Z r) := byte_to_Z chunk1]> (registers quieter) |}).
Proof.
  intros Hlen Hs Hl Hr Hlevel. unfold loop_body. rewrite masked_register.
  rewrite !bool_decide_eq_false_2 by done.
  rewrite (getitem_lookup _ _ r); [|apply Z.land_nonneg; lia|done]. cbn.
  pose proof (byte_to_Z_range r).
  rewrite write_non_level by (rewrite ?Hlen; done || lia).
  by rewrite pack_BB_bytes.
Qed.

Lemma loop_body_non_level_witness :
  loop_body 0 3 sample_codemap (main_quieter 5) x81 x25
  = (Return [x81; x25],
     {| quiet_function := quiet_function (main_quieter 5);
        registers :=
          <[Z.to_nat (byte_to_Z x20) := byte_to_Z x25]>
            (registers (main_quieter 5)) |}).
Proof.
  apply (loop_body_non_level 0 3 sample_codemap (main_quieter 5) x81 x25 x20).
  - reflexivity.
  - change (Z.land (byte_to_Z x81) 0x7F) with 1. lia.
  - change (Z.land (byte_to_Z x81) 0x7F) with 1. lia.
  - reflexivity.
  - change (byte_to_Z x20) with 0x20. lia.
Defined.

(** ** The whole run *)

Lemma namedunpack_inv (data : list byte) (h : header) :
  namedunpack data = Return h ->
  length data = 26%nat /\ cSignature h = take 8 data.
Proof.
  unfold namedunpack. case_bool_decide; [|discriminate].
  intros [= <-]. split; [done | reflexivity].
Qed.

(** At the end of the input the loop is left without an error, however many
    pairs the header announced. *)
Lemma pairs_loop_end_of_input (short_delay long_delay : Z)
    (codemap : list byte) (pairsTotal pairsRead : Z) (quieter : OPL2Quieter)
    (outfile : list byte) :
  pairs_loop short_delay long_delay codemap pairsTotal [] pairsRead quieter
    outfile
  = (Return tt, quieter, outfile).
Proof.
  cbn. case_bool_decide; reflexivity.
Qed.

(** Lists taken two elements at a time, as the loop reads its input. *)
Lemma list_pair_ind {A : Type} (P : list A -> Prop) :
  P [] ->
  (forall a, P [a]) ->
  (forall a b l, P l -> P (a :: b :: l)) ->
  forall l, P l.
Proof.
  intros Hnil Hone Hstep l.
  assert (H : P l /\ forall a, P (a :: l)); [|tauto].
  induction l as [|b l [IH1 IH2]]; split; auto.
Qed.

(** A stream no longer than the announced pairs is transcoded as if the
    header had announced any other count that covers it: the loop is left by
    the end of the input, not by the count. *)
Lemma pairs_loop_count_irrelevant (short_delay long_delay : Z)
    (codemap : list byte) (pairsTotal pairsTotal' : Z) (infile : list byte) :
  forall (pairsRead : Z) (quieter : OPL2Quieter) (outfile : list byte),
  Z.of_nat (length infile) <= 2 * (pairsTotal - pairsRead) ->
  Z.of_nat (length infile) <= 2 * (pairsTotal' - pairsRead) ->
  pairs_loop short_delay long_delay codemap pairsTotal infile pairsRead
    quieter outfile
  = pairs_loop short_delay long_delay codemap pairsTotal' infile pairsRead
      quieter outfile.
Proof.
  induction infile as [|a|a b infile IH] using list_pair_ind;
    intros pairsRead quieter outfile H H'.
  - by rewrite !pairs_loop_end_of_input.
  - cbn in *. rewrite !bool_decide_eq_true_2 by lia. reflexivity.
  - cbn [pairs_loop]. cbn [length] in H, H'.
    rewrite !bool_decide_eq_true_2 by lia.
    destruct (loop_body _ _ _ _ _ _) as [[packed|e] quieter']; [|reflexivity].
    apply IH; lia.
Qed.

(** C2: with level 0 the output differs from the input.  The sample file
    has one pair, value 0x25 for the carrier level register 0x43; the run
    ends with exit code 0 and has written that pair with value 0x00. *)
Theorem zero_level_changes_carrier_file :
  quieter_main carrier_file false 0
  = (Return (0, None), sample_header x01 ++ sample_codemap ++ [x02; x00]) /\
  snd (quieter_main carrier_file false 0) ≠ carrier_file.
Proof.
  split; [reflexivity|]. vm_compute. discriminate.
Qed.

(** C5: a pair stream cut in the middle of a pair.  The header of the sample
    file announces two pairs and three bytes follow the codemap: the first
    pair is written out, then the run ends with the unpacking error, not
    with an exit code.  Cut after the first pair, the same file is
    transcoded to the end of its input. *)
Theorem odd_file_raises :
  quieter_main odd_file false 5
  = (Raise struct_error, sample_header x02 ++ sample_codemap ++ [x00; x10]) /\
  quieter_main short_file false 5 = (Return (0, None), short_file).
Proof.
  split; reflexivity.
Qed.

(** C9: a file of fourteen bytes whose first eight are not the signature.
    The run ends with the unpacking error of the header, which escapes
    uncaught, where the claim asks for the signature error. *)
Lemma short_input_no_signature_error :
  take 8 not_a_dro ≠ DBRAWOPL /\
  quieter_main not_a_dro false 5 = (Raise struct_error, []) /\
  fst (quieter_main not_a_dro false 5) ≠ Return (1, Some not_a_valid_dro).
Proof.
  split; [vm_compute; discriminate|].
  split; [reflexivity | vm_compute; discriminate].
Qed.

(** The rejection as far as the program makes it: for every input of at
    least 26 bytes whose first eight bytes are not DBRAWOPL, the run returns
    exit code 1 with the invalid-file reason, and the output holds the 26
    header bytes and nothing else: no codemap, no pair. *)
Theorem bad_signature_rejected (infile : list byte) (verbose : bool)
    (level : Z) :
  (26 <= length infile)%nat ->
  take 8 infile ≠ DBRAWOPL ->
  quieter_main infile verbose level
  = (Return (1, Some not_a_valid_dro), take 26 infile).
Proof.
  intros Hlen Hsig. unfold quieter_main.
  assert (Hchunk : length (take 26 infile) = 26%nat)
    by (rewrite length_take; lia).
  destruct (namedunpack (take 26 infile)) as [data|e] eqn:Hdata.
  - apply namedunpack_inv in Hdata as [_ Hs].
    rewrite take_take in Hs. change (8 `min` 26)%nat with 8%nat in Hs.
    rewrite bool_decide_eq_true_2 by congruence. reflexivity.
  - unfold namedunpack in Hdata.
    rewrite bool_decide_eq_true_2 in Hdata by done. discriminate.
Qed.

Lemma bad_signature_rejected_witness :
  quieter_main (not_a_dro ++ not_a_dro) true 5
  = (Return (1, Some not_a_valid_dro), take 26 (not_a_dro ++ not_a_dro)).
Proof.
  apply (bad_signature_rejected (not_a_dro ++ not_a_dro) true 5).
  - vm_compute. lia.
  - vm_compute. discriminate.
Defined.

(** C10: a run that ends with the invalid-file reason has written the first
    26 bytes of the input, exactly: the output is not empty, and it is the
    header that was read and found to carry another signature. *)
Theorem rejected_run_leaves_header (infile : list byte) (verbose : bool)
    (level : Z) :
  fst (quieter_main infile verbose level)
  = Return (1, Some not_a_valid_dro) ->
  snd (quieter_main infile verbose level) = take 26 infile /\
  length (snd (quieter_main infile verbose level)) = 26%nat /\
  take 8 infile ≠ DBRAWOPL.
Proof.
  unfold quieter_main.
  destruct (namedunpack (take 26 infile)) as [data|e] eqn:Hdata;
    [|discriminate].
  apply namedunpack_inv in Hdata as [Hlen Hs].
  rewrite take_take in Hs. change (8 `min` 26)%nat with 8%nat in Hs.
  case_bool_decide as Hsig.
  - intros _. cbn [snd]. repeat split; [done | congruence].
  - destruct (print_info data _ verbose) as [[]|e]; [|discriminate].
    destruct (pairs_loop _ _ _ _ _ _ _ _) as [[[[]|e] q] out]; discriminate.
Qed.

Lemma rejected_run_leaves_header_witness :
  fst (quieter_main (not_a_dro ++ not_a_dro) false 5)
  = Return (1, Some not_a_valid_dro) /\
  (snd (quieter_main (not_a_dro ++ not_a_dro) false 5)
   = take 26 (not_a_dro ++ not_a_dro) /\
   length (snd (quieter_main (not_a_dro ++ not_a_dro) false 5)) = 26%nat /\
   take 8 (not_a_dro ++ not_a_dro) ≠ DBRAWOPL).
Proof.
  split; [reflexivity|].
  apply (rejected_run_leaves_header (not_a_dro ++ not_a_dro) false 5).
  reflexivity.
Defined.

(** * Further properties of the register bank *)

(** ** Bounds of the bit fields *)

Lemma land_0x3F_range (x : Z) : 0 <= Z.land x 0x3F < 64.
Proof.
  change 0x3F with (Z.ones 6). rewrite Z.land_ones by lia.
  change (2 ^ 6) with 64. pose proof (Z.mod_pos_bound x 64 ltac:(lia)). lia.
Qed.

Lemma land_0xFF_range (x : Z) : 0 <= Z.land x 0xFF < 256.
Proof.
  change 0xFF with (Z.ones 8). rewrite Z.land_ones by lia.
  change (2 ^ 8) with 256. pose proof (Z.mod_pos_bound x 256 ltac:(lia)). lia.
Qed.

(** A field of the top two bits and a field of the low six bits share no
    bit. *)
Lemma ksl_level_disjoint (x y : Z) :
  Z.land (Z.land x 0xC0) (Z.land y 0x3F) = 0.
Proof.
  apply Z.bits_inj'. intros n _.
  assert (H : Z.testbit 0xC0 n && Z.testbit 0x3F n = false).
  { rewrite <- Z.land_spec. change (Z.land 0xC0 0x3F) with 0. apply Z.bits_0. }
  rewrite !Z.land_spec, Z.bits_0.
  destruct (Z.testbit x n), (Z.testbit y n), (Z.testbit 0xC0 n),
    (Z.testbit 0x3F n); simpl in *; congruence.
Qed.

(** The two fields of a value make up its low eight bits. *)
Lemma ksl_plus_level (x : Z) :
  Z.land x 0xC0 + Z.land x 0x3F = Z.land x 0xFF.
Proof.
  rewrite <- Z.add_lor_land, ksl_level_disjoint, <- Z.land_lor_distr_r.
  change (Z.lor 0xC0 0x3F) with 0xFF. lia.
Qed.

Lemma land_0xC0_range (x : Z) : 0 <= Z.land x 0xC0 <= 192.
Proof.
  pose proof (ksl_plus_level x) as Hsum. revert Hsum.
  change 0x3F with (Z.ones 6). change 0xFF with (Z.ones 8).
  rewrite !Z.land_ones by lia. change (2 ^ 6) with 64. change (2 ^ 8) with 256.
  intros Hsum. Z.div_mod_to_equations. lia.
Qed.

(** An adjusted value is a byte, whatever integers go in. *)
Lemma adjusted_value_range (value level : Z) :
  0 <= Z.lor (Z.land value 0xC0) (Z.land level 0x3F) <= 255.
Proof.
  pose proof (Z.add_lor_land (Z.land value 0xC0) (Z.land level 0x3F)) as H.
  rewrite ksl_level_disjoint in H.
  pose proof (land_0xC0_range value). pose proof (land_0x3F_range level). lia.
Qed.

(** ** The state machine *)

(** The value [write] adjusts a level to. *)
Lemma write_mapped (self : OPL2Quieter)
    (register value algorithm_register cell : Z) :
  length (registers self) = 256%nat ->
  LEVEL_TO_ALGORITHM !! register = Some algorithm_register ->
  registers self !! Z.to_nat algorithm_register = Some cell ->
  let value' :=
    if bool_decide (Z.land cell 0x01 = 0 /\ register ∉ CARRIERS) then value
    else Z.lor (Z.land value 0xC0)
               (Z.land (quiet_function self (Z.land value 0x3F)) 0x3F) in
  write self register value =
    (Return (register, value'),
     {| quiet_function := quiet_function self;
        registers := <[Z.to_nat register := value']> (registers self) |}).
Proof.
  intros Hlen Hmap Hcell value'. subst value'.
  destruct (mapped_algorithm_register _ _ Hmap) as [Hr Ha].
  case_bool_decide as Hkeep.
  - destruct Hkeep as [Hfm Hmodulator].
    unfold write, write_value.
    rewrite bool_decide_eq_true_2 by done.
    unfold dict_getitem. rewrite Hmap. cbn.
    rewrite (getitem_lookup _ _ cell) by (done || lia). cbn.
    rewrite (bool_decide_eq_true_2 (Z.land cell 1 = 0)) by done.
    rewrite (bool_decide_eq_false_2 (register ∈ CARRIERS)) by done.
    rewrite setitem_in_range by (rewrite Hlen; lia). reflexivity.
  - apply (write_modified self register value algorithm_register cell);
      try done.
    destruct (decide (Z.land cell 1 = 0)) as [Hfm | Hadd]; [|by left].
    destruct (decide (register ∈ CARRIERS)) as [Hcar | Hmodulator];
      [by right | tauto].
Qed.

Lemma write_value_unmapped (self : OPL2Quieter) (register value : Z) :
  register ∈ [0x46; 0x47; 0x4E; 0x4F] ->
  write self register value = (Raise (KeyError register), self).
Proof.
  intros H. apply unmapped_level_registers_absent in H as [Hr Hmap].
  unfold write, write_value. rewrite bool_decide_eq_true_2 by done.
  unfold dict_getitem. rewrite Hmap. reflexivity.
Qed.

Lemma write_value_range (self : OPL2Quieter) (register value value' : Z) :
  0 <= value <= 255 ->
  write_value self register value = Return value' ->
  0 <= value' <= 255.
Proof.
  intros Hv. unfold write_value. case_bool_decide; [|congruence].
  destruct (dict_getitem LEVEL_TO_ALGORITHM register) as [a|]; [|discriminate].
  cbn. destruct (getitem (registers self) a) as [cell|]; [|discriminate].
  cbn. repeat case_bool_decide; intros [= <-];
    first [ apply adjusted_value_range | done ].
Qed.

(** X1: a call of [write] that returns has stored the returned value in the
    bank cell of the register and has left every other cell, the size of the
    bank and the attenuation function as they were. *)
Theorem write_stores (self self' : OPL2Quieter)
    (register value register' value' : Z) :
  0 <= register ->
  write self register value = (Return (register', value'), self') ->
  register' = register /\
  registers self' !! Z.to_nat register = Some value' /\
  (forall n : nat,
     n <> Z.to_nat register -> registers self' !! n = registers self !! n) /\
  length (registers self') = length (registers self) /\
  quiet_function self' = quiet_function self.
Proof.
  intros Hr Hw. apply write_inv in Hw as (-> & _ & Hset & Hf).
  unfold setitem, py_index in Hset.
  case_bool_decide as Hin.
  - injection Hset as <-.
    split; [done|]. split; [apply list_lookup_insert_eq; lia|].
    split; [|split; [apply length_insert | done]].
    intros n Hn. by apply list_lookup_insert_ne.
  - case_bool_decide; [lia | discriminate].
Qed.

Lemma write_stores_witness :
  0x43 = 0x43 /\
  registers (snd (write (main_quieter 5) 0x43 0x25)) !! Z.to_nat 0x43 = Some 0 /\
  (forall n : nat,
     n <> Z.to_nat 0x43 ->
     registers (snd (write (main_quieter 5) 0x43 0x25)) !! n
     = registers (main_quieter 5) !! n) /\
  length (registers (snd (write (main_quieter 5) 0x43 0x25)))
  = length (registers (main_quieter 5)) /\
  quiet_function (snd (write (main_quieter 5) 0x43 0x25))
  = quiet_function (main_quieter 5).
Proof.
  apply (write_stores (main_quieter 5) (snd (write (main_quieter 5) 0x43 0x25))
           0x43 0x25 0x43 0).
  - lia.
  - reflexivity.
Defined.

(** X2: on a level register with an entry in the table, [write] keeps the
    value when the algorithm bit in the bank is 0 and the register is no
    carrier, and in every other case returns and stores the top two bits of
    the value joined with the low six bits of the attenuation function's
    result on the low six bits of the value. *)
Theorem write_level_register (self : OPL2Quieter)
    (register value algorithm_register cell : Z) :
  length (registers self) = 256%nat ->
  LEVEL_TO_ALGORITHM !! register = Some algorithm_register ->
  registers self !! Z.to_nat algorithm_register = Some cell ->
  exists value' : Z,
    value' =
      (if bool_decide (Z.land cell 0x01 = 0 /\ register ∉ CARRIERS) then value
       else Z.lor (Z.land value 0xC0)
                  (Z.land (quiet_function self (Z.land value 0x3F)) 0x3F)) /\
    write self register value =
      (Return (register, value'),
       {| quiet_function := quiet_function self;
          registers := <[Z.to_nat register := value']> (registers self) |}).
Proof.
  intros Hlen Hmap Hcell. eexists. split; [reflexivity|].
  by apply (write_mapped self register value algorithm_register cell).
Qed.

Lemma write_level_register_witness :
  exists value' : Z,
    value' =
      (if bool_decide (Z.land 1 0x01 = 0 /\ 0x40 ∉ CARRIERS) then 0xE5
       else Z.lor (Z.land 0xE5 0xC0)
                  (Z.land ((fun l => Z.max (l - 5) 0) (Z.land 0xE5 0x3F)) 0x3F)) /\
    write {| quiet_function := fun l => Z.max (l - 5) 0;
             registers := <[0xC0%nat := 1]> (replicate 0x100%nat 0) |}
          0x40 0xE5 =
      (Return (0x40, value'),
       {| quiet_function := fun l => Z.max (l - 5) 0;
          registers :=
            <[Z.to_nat 0x40 := value']>
              (<[0xC0%nat := 1]> (replicate 0x100%nat 0)) |}).
Proof.
  apply (write_level_register
           {| quiet_function := fun l => Z.max (l - 5) 0;
              registers := <[0xC0%nat := 1]> (replicate 0x100%nat 0) |}
           0x40 0xE5 0xC0 1); reflexivity.
Defined.

(** X3: [write] turns a byte into a byte: for a value of 0..255 the value
    returned is in 0..255, whatever the attenuation function returns (a
    negative or a large number included). *)
Theorem write_returns_byte (self self' : OPL2Quieter)
    (register value register' value' : Z) :
  0 <= value <= 255 ->
  write self register value = (Return (register', value'), self') ->
  0 <= value' <= 255.
Proof.
  intros Hv Hw. apply write_inv in Hw as (_ & Hval & _ & _).
  by apply (write_value_range self register value).
Qed.

Lemma write_returns_byte_witness : 0 <= 0xC8 <= 255.
Proof.
  apply (write_returns_byte
           (OPL2Quieter_init (fun _ => -56))
           (snd (write (OPL2Quieter_init (fun _ => -56)) 0x43 0xE5))
           0x43 0xE5 0x43 0xC8).
  - lia.
  - reflexivity.
Defined.

(** X4: on a bank of 256 cells and for a register of 0..255, [write] returns
    a pair exactly when the register is none of 0x46, 0x47, 0x4E, 0x4F. *)
Theorem write_returns_iff (self : OPL2Quieter) (register value : Z) :
  length (registers self) = 256%nat ->
  0 <= register <= 255 ->
  (exists (value' : Z) (self' : OPL2Quieter),
     write self register value = (Return (register, value'), self'))
  <-> register ∉ [0x46; 0x47; 0x4E; 0x4F].
Proof.
  intros Hlen Hr. split.
  - intros (value' & self' & Hw) Hunmapped.
    rewrite write_value_unmapped in Hw by done. discriminate.
  - intros Hmapped.
    destruct (decide (0x40 <= register <= 0x55)) as [Hlevel | Hother].
    + destruct (LEVEL_TO_ALGORITHM !! register) as [a|] eqn:Hmap.
      * destruct (mapped_algorithm_register _ _ Hmap) as [_ Ha].
        destruct (lookup_lt_is_Some_2 (registers self) (Z.to_nat a)) as [cell Hcell];
          [lia|].
        do 2 eexists.
        by apply (write_mapped self register value a cell).
      * exfalso. apply Hmapped. by apply unmapped_level_registers.
    + do 2 eexists. apply write_non_level; [lia | done].
Qed.

Lemma write_returns_iff_witness :
  (exists (value' : Z) (self' : OPL2Quieter),
     write (main_quieter 5) 0xC0 0x01 = (Return (0xC0, value'), self'))
  <-> 0xC0 ∉ [0x46; 0x47; 0x4E; 0x4F].
Proof.
  apply (write_returns_iff (main_quieter 5) 0xC0 0x01).
  - reflexivity.
  - lia.
Defined.

(** X5: a write to an algorithm register decides the next write to a level
    register it governs: after value [a] went to the algorithm register, the
    level is kept when the lowest bit of [a] is 0 and the register is no
    carrier, and adjusted otherwise. *)
Theorem algorithm_write_gates_level (self : OPL2Quieter)
    (register algorithm_register a value : Z) :
  length (registers self) = 256%nat ->
  LEVEL_TO_ALGORITHM !! register = Some algorithm_register ->
  fst (write (snd (write self algorithm_register a)) register value)
  = Return
      (register,
       if bool_decide (Z.land a 0x01 = 0 /\ register ∉ CARRIERS) then value
       else Z.lor (Z.land value 0xC0)
                  (Z.land (quiet_function self (Z.land value 0x3F)) 0x3F)).
Proof.
  intros Hlen Hmap.
  destruct (mapped_algorithm_register _ _ Hmap) as [Hr Ha].
  rewrite (write_non_level self algorithm_register a) by (rewrite ?Hlen; lia).
  cbn [snd].
  rewrite (write_mapped _ register value algorithm_register a).
  - reflexivity.
  - cbn. rewrite length_insert. done.
  - done.
  - cbn. apply list_lookup_insert_eq. lia.
Qed.

Lemma algorithm_write_gates_level_witness :
  fst (write (snd (write (OPL2Quieter_init (fun l => Z.max (l - 5) 0)) 0xC0 0x01))
         0x40 0x25)
  = Return
      (0x40,
       if bool_decide (Z.land 0x01 0x01 = 0 /\ 0x40 ∉ CARRIERS) then 0x25
       else Z.lor (Z.land 0x25 0xC0)
                  (Z.land
                     (quiet_function (OPL2Quieter_init (fun l => Z.max (l - 5) 0))
                        (Z.land 0x25 0x3F)) 0x3F)).
Proof.
  apply (algorithm_write_gates_level
           (OPL2Quieter_init (fun l => Z.max (l - 5) 0)) 0x40 0xC0 0x01 0x25);
    reflexivity.
Defined.

(** * Further properties of the loop *)

Lemma write_returns (self : OPL2Quieter) (register value : Z) :
  length (registers self) = 256%nat ->
  0 <= register <= 255 ->
  register ∉ [0x46; 0x47; 0x4E; 0x4F] ->
  exists (value' : Z) (self' : OPL2Quieter),
    write self register value = (Return (register, value'), self').
Proof.
  intros Hlen Hr Hmapped.
  destruct (decide (0x40 <= register <= 0x55)) as [Hlevel | Hother].
  - destruct (LEVEL_TO_ALGORITHM !! register) as [a|] eqn:Hmap.
    + destruct (mapped_algorithm_register _ _ Hmap) as [_ Ha].
      destruct (lookup_lt_is_Some_2 (registers self) (Z.to_nat a)) as [cell Hcell];
        [lia|].
      do 2 eexists. by apply (write_mapped self register value a cell).
    + exfalso. apply Hmapped. by apply unmapped_level_registers.
  - do 2 eexists. apply write_non_level; [lia | done].
Qed.

Lemma pack_B_range (z : Z) : 0 <= z <= 255 -> exists b, pack_B z = Return b.
Proof.
  intros Hz. unfold pack_B. rewrite bool_decide_eq_true_2 by done.
  destruct (Byte.of_N (Z.to_N z)) as [b|] eqn:E; [by exists b|].
  apply Byte.of_N_None_iff in E. lia.
Qed.

Lemma masked_nonneg (b : byte) : 0 <= Z.land (byte_to_Z b) 0x7F.
Proof.
  apply Z.land_nonneg. lia.
Qed.

(** The codemap lookup of the loop. *)
Lemma getitem_codemap (codemap : list byte) (i : Z) :
  0 <= i ->
  getitem codemap i =
    match codemap !! Z.to_nat i with
    | Some r => Return r
    | None => Raise IndexError
    end.
Proof.
  intros Hi. unfold getitem, py_index.
  destruct (codemap !! Z.to_nat i) as [r|] eqn:Hget.
  - pose proof (lookup_lt_Some _ _ _ Hget).
    rewrite bool_decide_eq_true_2 by lia. by rewrite Hget.
  - pose proof (lookup_ge_None_1 _ _ Hget).
    rewrite bool_decide_eq_false_2 by lia.
    rewrite bool_decide_eq_false_2 by lia. reflexivity.
Qed.

(** A turn of the loop on a pair that is no delay and has a codemap entry
    outside the unmapped level registers. *)
Lemma loop_body_written (short_delay long_delay : Z) (codemap : list byte)
    (quieter : OPL2Quieter) (chunk0 chunk1 r : byte) :
  length (registers quieter) = 256%nat ->
  Z.land (byte_to_Z chunk0) 0x7F ≠ short_delay ->
  Z.land (byte_to_Z chunk0) 0x7F ≠ long_delay ->
  codemap !! Z.to_nat (Z.land (byte_to_Z chunk0) 0x7F) = Some r ->
  byte_to_Z r ∉ [0x46; 0x47; 0x4E; 0x4F] ->
  exists (out : byte) (quieter' : OPL2Quieter),
    write quieter (byte_to_Z r) (byte_to_Z chunk1)
    = (Return (byte_to_Z r, byte_to_Z out), quieter') /\
    loop_body short_delay long_delay codemap quieter chunk0 chunk1
    = (Return [chunk0; out], quieter').
Proof.
  intros Hlen Hs Hl Hr Hmapped.
  destruct (write_returns quieter (byte_to_Z r) (byte_to_Z chunk1))
    as (v & q' & Hw); [done | apply byte_to_Z_range | done |].
  pose proof Hw as Hinv. apply write_inv in Hinv as (_ & Hval & _ & _).
  apply write_value_range in Hval; [|apply byte_to_Z_range].
  destruct (pack_B_range v Hval) as [out Hout].
  pose proof (pack_B_inv _ _ Hout) as <-.
  exists out, q'. split; [done|].
  unfold loop_body. rewrite masked_register.
  rewrite !bool_decide_eq_false_2 by done.
  rewrite getitem_codemap, Hr by apply masked_nonneg. cbn.
  rewrite Hw. by rewrite pack_BB_bytes.
Qed.

(** A turn of the loop on a delay. *)
Lemma loop_body_skips (short_delay long_delay : Z) (codemap : list byte)
    (quieter : OPL2Quieter) (chunk0 chunk1 : byte) :
  Z.land (byte_to_Z chunk0) 0x7F = short_delay \/
  Z.land (byte_to_Z chunk0) 0x7F = long_delay ->
  loop_body short_delay long_delay codemap quieter chunk0 chunk1
  = (Return [chunk0; chunk1], quieter).
Proof.
  intros Hdelay. unfold loop_body. rewrite masked_register.
  case_bool_decide as Hs; cbn; [by rewrite pack_BB_bytes|].
  destruct Hdelay as [Hd | Hd]; [done|].
  rewrite bool_decide_eq_true_2 by done. cbn. by rewrite pack_BB_bytes.
Qed.

(** X6: on a bank of 256 cells a turn of the loop writes a pair exactly when
    the masked register is a delay code or has a codemap entry that is none
    of the registers 0x46, 0x47, 0x4E, 0x4F. *)
Theorem loop_body_returns_iff (short_delay long_delay : Z)
    (codemap : list byte) (quieter : OPL2Quieter) (chunk0 chunk1 : byte) :
  length (registers quieter) = 256%nat ->
  (exists (packed : list byte) (quieter' : OPL2Quieter),
     loop_body short_delay long_delay codemap quieter chunk0 chunk1
     = (Return packed, quieter'))
  <->
  (Z.land (byte_to_Z chunk0) 0x7F = short_delay \/
   Z.land (byte_to_Z chunk0) 0x7F = long_delay \/
   exists r : byte,
     codemap !! Z.to_nat (Z.land (byte_to_Z chunk0) 0x7F) = Some r /\
     byte_to_Z r ∉ [0x46; 0x47; 0x4E; 0x4F]).
Proof.
  intros Hlen. split.
  - intros (packed & q' & Hloop).
    destruct (decide (Z.land (byte_to_Z chunk0) 0x7F = short_delay)) as [|Hs];
      [by left|].
    destruct (decide (Z.land (byte_to_Z chunk0) 0x7F = long_delay)) as [|Hl];
      [by right; left|].
    right; right. revert Hloop. unfold loop_body. rewrite masked_register.
    rewrite !bool_decide_eq_false_2 by done.
    rewrite getitem_codemap by apply masked_nonneg.
    destruct (codemap !! _) as [r|]; [|discriminate]. cbn.
    intros Hloop. exists r. split; [done|]. intros Hunmapped.
    rewrite write_value_unmapped in Hloop by done. discriminate.
  - intros [Hs | [Hl | (r & Hr & Hmapped)]].
    + do 2 eexists. apply loop_body_skips. by left.
    + do 2 eexists. apply loop_body_skips. by right.
    + destruct (decide (Z.land (byte_to_Z chunk0) 0x7F = short_delay)) as [Hs|Hs];
        [do 2 eexists; apply loop_body_skips; by left|].
      destruct (decide (Z.land (byte_to_Z chunk0) 0x7F = long_delay)) as [Hl|Hl];
        [do 2 eexists; apply loop_body_skips; by right|].
      destruct (loop_body_written short_delay long_delay codemap quieter
                  chunk0 chunk1 r) as (out & q' & _ & Hloop); try done.
      by do 2 eexists.
Qed.

Lemma loop_body_returns_iff_witness :
  (exists (packed : list byte) (quieter' : OPL2Quieter),
     loop_body 0 1 sample_codemap (main_quieter 5) x02 x25
     = (Return packed, quieter'))
  <->
  (Z.land (byte_to_Z x02) 0x7F = 0 \/
   Z.land (byte_to_Z x02) 0x7F = 1 \/
   exists r : byte,
     sample_codemap !! Z.to_nat (Z.land (byte_to_Z x02) 0x7F) = Some r /\
     byte_to_Z r ∉ [0x46; 0x47; 0x4E; 0x4F]).
Proof.
  apply (loop_body_returns_iff 0 1 sample_codemap (main_quieter 5) x02 x25).
  reflexivity.
Defined.

(** X7: on a bank of 256 cells a turn of the loop fails in two ways only, and
    leaves the quieter object untouched when it does: with [IndexError] when
    the masked register is no delay code and has no codemap entry, with
    [KeyError] when its codemap entry is one of 0x46, 0x47, 0x4E, 0x4F.  The
    packing of the output pair never fails. *)
Theorem loop_body_raises (short_delay long_delay : Z) (codemap : list byte)
    (quieter quieter' : OPL2Quieter) (chunk0 chunk1 : byte) (e : exn) :
  length (registers quieter) = 256%nat ->
  loop_body short_delay long_delay codemap quieter chunk0 chunk1
  = (Raise e, quieter') ->
  quieter' = quieter /\
  Z.land (byte_to_Z chunk0) 0x7F ≠ short_delay /\
  Z.land (byte_to_Z chunk0) 0x7F ≠ long_delay /\
  ((e = IndexError /\
    codemap !! Z.to_nat (Z.land (byte_to_Z chunk0) 0x7F) = None) \/
   (exists r : byte,
      codemap !! Z.to_nat (Z.land (byte_to_Z chunk0) 0x7F) = Some r /\
      byte_to_Z r ∈ [0x46; 0x47; 0x4E; 0x4F] /\
      e = KeyError (byte_to_Z r))).
Proof.
  intros Hlen Hloop.
  destruct (decide (Z.land (byte_to_Z chunk0) 0x7F = short_delay)) as [Hs|Hs].
  { rewrite loop_body_skips in Hloop by (by left). discriminate. }
  destruct (decide (Z.land (byte_to_Z chunk0) 0x7F = long_delay)) as [Hl|Hl].
  { rewrite loop_body_skips in Hloop by (by right). discriminate. }
  destruct (codemap !! Z.to_nat (Z.land (byte_to_Z chunk0) 0x7F))
    as [r|] eqn:Hr.
  - destruct (decide (byte_to_Z r ∈ [0x46; 0x47; 0x4E; 0x4F])) as [Hun|Hmapped].
    + revert Hloop. unfold loop_body. rewrite masked_register.
      rewrite !bool_decide_eq_false_2 by done.
      rewrite getitem_codemap, Hr by apply masked_nonneg. cbn.
      rewrite write_value_unmapped by done. intros [= <- <-].
      repeat split; try done. right. by exists r.
    + destruct (loop_body_written short_delay long_delay codemap quieter
                  chunk0 chunk1 r) as (out & q' & _ & Hret); try done.
      rewrite Hret in Hloop. discriminate.
  - revert Hloop. unfold loop_body. rewrite masked_register.
    rewrite !bool_decide_eq_false_2 by done.
    rewrite getitem_codemap, Hr by apply masked_nonneg. cbn.
    intros [= <- <-]. repeat split; try done. by left.
Qed.

Lemma loop_body_raises_witness :
  main_quieter 5 = main_quieter 5 /\
  Z.land (byte_to_Z x83) 0x7F ≠ 0 /\
  Z.land (byte_to_Z x83) 0x7F ≠ 1 /\
  ((IndexError = IndexError /\
    sample_codemap !! Z.to_nat (Z.land (byte_to_Z x83) 0x7F) = None) \/
   (exists r : byte,
      sample_codemap !! Z.to_nat (Z.land (byte_to_Z x83) 0x7F) = Some r /\
      byte_to_Z r ∈ [0x46; 0x47; 0x4E; 0x4F] /\
      IndexError = KeyError (byte_to_Z r))).
Proof.
  apply (loop_body_raises 0 1 sample_codemap (main_quieter 5) (main_quieter 5)
           x83 x25 IndexError).
  - reflexivity.
  - reflexivity.
Defined.

(** X8: the bank flag of the register byte (bit 7) only shows in the byte
    written back.  Two pairs with the same value whose register bytes agree
    on the low seven bits fail alike or are written with the same value
    byte, and leave the quieter object in the same state: the pairs of both
    banks go to one register bank. *)
Theorem loop_body_bank_flag (short_delay long_delay : Z) (codemap : list byte)
    (quieter : OPL2Quieter) (chunk0 chunk0' chunk1 : byte) :
  Z.land (byte_to_Z chunk0) 0x7F = Z.land (byte_to_Z chunk0') 0x7F ->
  snd (loop_body short_delay long_delay codemap quieter chunk0 chunk1)
  = snd (loop_body short_delay long_delay codemap quieter chunk0' chunk1) /\
  match
    fst (loop_body short_delay long_delay codemap quieter chunk0 chunk1),
    fst (loop_body short_delay long_delay codemap quieter chunk0' chunk1)
  with
  | Return packed, Return packed' =>
      exists out : byte, packed = [chunk0; out] /\ packed' = [chunk0'; out]
  | Raise e, Raise e' => e = e'
  | _, _ => False
  end.
Proof.
  intros Hmask. unfold loop_body. rewrite !masked_register, <- Hmask.
  set (masked := Z.land (byte_to_Z chunk0) 0x7F).
  assert (Hpack : forall val : Z,
    match pack_BB (byte_to_Z chunk0) val, pack_BB (byte_to_Z chunk0') val with
    | Return packed, Return packed' =>
        exists out : byte, packed = [chunk0; out] /\ packed' = [chunk0'; out]
    | Raise e, Raise e' => e = e'
    | _, _ => False
    end).
  { intros val. unfold pack_BB. rewrite !pack_B_byte. cbn.
    destruct (pack_B val) as [out|e]; cbn; [by exists out | done]. }
  repeat case_bool_decide; cbn; try (split; [reflexivity | apply Hpack]).
  destruct (getitem codemap masked) as [r|e]; cbn; [|done].
  destruct (write quieter (byte_to_Z r) (byte_to_Z chunk1))
    as [[[reg val]|e] q']; cbn; [|done].
  split; [reflexivity | apply Hpack].
Qed.

Lemma loop_body_bank_flag_witness :
  snd (loop_body 0 1 sample_codemap (main_quieter 5) x02 x25)
  = snd (loop_body 0 1 sample_codemap (main_quieter 5) x82 x25) /\
  match
    fst (loop_body 0 1 sample_codemap (main_quieter 5) x02 x25),
    fst (loop_body 0 1 sample_codemap (main_quieter 5) x82 x25)
  with
  | Return packed, Return packed' =>
      exists out : byte, packed = [x02; out] /\ packed' = [x82; out]
  | Raise e, Raise e' => e = e'
  | _, _ => False
  end.
Proof.
  apply (loop_body_bank_flag 0 1 sample_codemap (main_quieter 5) x02 x82 x25).
  reflexivity.
Defined.

(** ** The loop over the pairs *)

(** What a turn of the loop writes. *)
Lemma loop_body_packed (short_delay long_delay : Z) (codemap : list byte)
    (quieter quieter' : OPL2Quieter) (chunk0 chunk1 : byte)
    (packed : list byte) :
  loop_body short_delay long_delay codemap quieter chunk0 chunk1
  = (Return packed, quieter') ->
  exists out : byte,
    packed = [chunk0; out] /\
    Z.land (byte_to_Z out) 0xC0 = Z.land (byte_to_Z chunk1) 0xC0.
Proof.
  unfold loop_body. rewrite masked_register.
  assert (Hskip : forall q : OPL2Quieter,
    (pack_BB (byte_to_Z chunk0) (byte_to_Z chunk1), q) = (Return packed, quieter') ->
    exists out : byte,
      packed = [chunk0; out] /\
      Z.land (byte_to_Z out) 0xC0 = Z.land (byte_to_Z chunk1) 0xC0).
  { intros q. rewrite pack_BB_bytes. intros [= <- _]. by exists chunk1. }
  repeat case_bool_decide; cbn; try apply Hskip.
  destruct (getitem codemap _) as [r|]; [|discriminate]. cbn.
  destruct (write quieter (byte_to_Z r) (byte_to_Z chunk1))
    as [[[reg val]|e] q'] eqn:Hw; [|discriminate].
  apply write_inv in Hw as (_ & Hval & _ & _).
  apply write_value_ksl in Hval.
  unfold pack_BB. rewrite pack_B_byte. cbn.
  destruct (pack_B val) as [out|] eqn:Hout; [|discriminate]. cbn.
  intros [= <- _]. exists out. split; [reflexivity|].
  apply pack_B_inv in Hout. by rewrite Hout.
Qed.

Lemma pairs_loop_step (short_delay long_delay : Z) (codemap : list byte)
    (pairsTotal : Z) (chunk0 chunk1 : byte) (infile : list byte)
    (pairsRead : Z) (quieter : OPL2Quieter) (outfile : list byte) :
  pairs_loop short_delay long_delay codemap pairsTotal
    (chunk0 :: chunk1 :: infile) pairsRead quieter outfile
  = if bool_decide (pairsRead < pairsTotal) then
      match loop_body short_delay long_delay codemap quieter chunk0 chunk1 with
      | (Raise e, quieter') => (Raise e, quieter', outfile)
      | (Return packed, quieter') =>
          pairs_loop short_delay long_delay codemap pairsTotal infile
            (pairsRead + 1) quieter' (outfile ++ packed)
      end
    else (Return tt, quieter, outfile).
Proof.
  reflexivity.
Qed.

(** The loop was left before anything was written. *)
Local Ltac nothing_written :=
  exists [], 0%nat; rewrite app_nil_r;
  split; [done|]; split; [done|]; split; [cbn; lia|];
  split; [intros i Hi; lia
         | intros i val val' _ Hw; rewrite lookup_nil in Hw; discriminate].

(** X9: whatever the outcome of the loop, what it has written is what was
    written before followed by whole pairs, no more of them than the input
    holds; each register byte written is the register byte read at the same
    position, and each value byte written has the top two bits of the value
    byte read at the same position. *)
Theorem pairs_loop_output (short_delay long_delay : Z) (codemap : list byte)
    (pairsTotal : Z) (infile : list byte) :
  forall (pairsRead : Z) (quieter quieter' : OPL2Quieter)
         (outfile outfile' : list byte) (res : result unit),
  pairs_loop short_delay long_delay codemap pairsTotal infile pairsRead
    quieter outfile
  = (res, quieter', outfile') ->
  exists (written : list byte) (turns : nat),
    outfile' = outfile ++ written /\
    length written = (2 * turns)%nat /\
    (2 * turns <= length infile)%nat /\
    (forall i : nat,
       (i < turns)%nat -> written !! (2 * i)%nat = infile !! (2 * i)%nat) /\
    (forall (i : nat) (val val' : byte),
       infile !! (2 * i + 1)%nat = Some val ->
       written !! (2 * i + 1)%nat = Some val' ->
       Z.land (byte_to_Z val') 0xC0 = Z.land (byte_to_Z val) 0xC0).
Proof.
  induction infile as [|a|a b infile IH] using list_pair_ind;
    intros pairsRead quieter quieter' outfile outfile' res Hloop.
  - rewrite pairs_loop_end_of_input in Hloop. injection Hloop as <- <- <-.
    nothing_written.
  - cbn in Hloop.
    assert (outfile' = outfile) as -> by (case_bool_decide; congruence).
    nothing_written.
  - rewrite pairs_loop_step in Hloop. case_bool_decide.
    + destruct (loop_body _ _ _ _ _ _) as [[packed|e] q1] eqn:Hbody.
      * apply loop_body_packed in Hbody as (out & -> & Hksl).
        apply IH in Hloop as (written & turns & -> & Hlen & Hle & Hreg & Hval).
        exists (a :: out :: written), (S turns).
        split; [by rewrite <- app_assoc|].
        split; [cbn; lia|]. split; [cbn; lia|]. split.
        -- intros [|i] Hi; [reflexivity|].
           replace (2 * S i)%nat with (S (S (2 * i))) by lia.
           cbn. apply Hreg. lia.
        -- intros [|i] val val'.
           ++ cbn. intros [= <-] [= <-]. done.
           ++ replace (2 * S i + 1)%nat with (S (S (2 * i + 1))) by lia.
              cbn. apply Hval.
      * injection Hloop as <- <- <-.
        nothing_written.
    + injection Hloop as <- <- <-.
      nothing_written.
Qed.

Lemma pairs_loop_output_witness :
  exists (written : list byte) (turns : nat),
    [x44; x00; x10; x02; x00] = [x44] ++ written /\
    length written = (2 * turns)%nat /\
    (2 * turns <= length [x00; x10; x02; x25; x02])%nat /\
    (forall i : nat,
       (i < turns)%nat ->
       written !! (2 * i)%nat = [x00; x10; x02; x25; x02] !! (2 * i)%nat) /\
    (forall (i : nat) (val val' : byte),
       [x00; x10; x02; x25; x02] !! (2 * i + 1)%nat = Some val ->
       written !! (2 * i + 1)%nat = Some val' ->
       Z.land (byte_to_Z val') 0xC0 = Z.land (byte_to_Z val) 0xC0).
Proof.
  apply (pairs_loop_output 0 1 sample_codemap 3 [x00; x10; x02; x25; x02] 0
           (main_quieter 5)
           (snd (fst (pairs_loop 0 1 sample_codemap 3
                        [x00; x10; x02; x25; x02] 0 (main_quieter 5) [x44])))
           [x44] [x44; x00; x10; x02; x00] (Raise struct_error)).
  reflexivity.
Defined.

(** By how much the output grows in a loop that ends without an
    exception. *)
Lemma pairs_loop_grows (short_delay long_delay : Z) (codemap : list byte)
    (pairsTotal : Z) (infile : list byte) :
  forall (pairsRead : Z) (quieter quieter' : OPL2Quieter)
         (outfile outfile' : list byte),
  pairs_loop short_delay long_delay codemap pairsTotal infile pairsRead
    quieter outfile
  = (Return tt, quieter', outfile') ->
  length outfile' =
    (length outfile
     + (2 * Z.to_nat (pairsTotal - pairsRead)) `min` length infile)%nat.
Proof.
  induction infile as [|a|a b infile IH] using list_pair_ind;
    intros pairsRead quieter quieter' outfile outfile' Hloop.
  - rewrite pairs_loop_end_of_input in Hloop. injection Hloop as <- <-.
    cbn. lia.
  - cbn in Hloop. case_bool_decide; [discriminate|].
    injection Hloop as <- <-. cbn. lia.
  - rewrite pairs_loop_step in Hloop. case_bool_decide.
    + destruct (loop_body _ _ _ _ _ _) as [[packed|e] q1] eqn:Hbody;
        [|discriminate].
      apply loop_body_packed in Hbody as (out & -> & _).
      apply IH in Hloop. rewrite Hloop, length_app. cbn. lia.
    + injection Hloop as <- <-. cbn. lia.
Qed.

(** X10: a loop that ends without an exception has written two bytes for
    every announced pair still to come, or one byte for every byte of input
    when the input ends first: the output grows by the smaller of the two. *)
Theorem pairs_loop_length (short_delay long_delay : Z) (codemap : list byte)
    (pairsTotal : Z) (infile : list byte) :
  forall (pairsRead : Z) (quieter quieter' : OPL2Quieter)
         (outfile outfile' : list byte),
  pairs_loop short_delay long_delay codemap pairsTotal infile pairsRead
    quieter outfile
  = (Return tt, quieter', outfile') ->
  length outfile' =
    (length outfile
     + (2 * Z.to_nat (pairsTotal - pairsRead)) `min` length infile)%nat.
Proof.
  apply pairs_loop_grows.
Qed.

Lemma pairs_loop_length_witness :
  length [x44; x00; x10] =
    (length [x44]
     + (2 * Z.to_nat (1 - 0)) `min` length [x00; x10; x02; x25; x02])%nat.
Proof.
  apply (pairs_loop_length 0 1 sample_codemap 1 [x00; x10; x02; x25; x02] 0
           (main_quieter 5) (main_quieter 5) [x44] [x44; x00; x10]).
  reflexivity.
Defined.

(** X11: the loop reads no further than the announced pairs: the bytes of
    the input behind them change neither the outcome, nor the state of the
    quieter object, nor the output. *)
Theorem pairs_loop_reads_announced (short_delay long_delay : Z)
    (codemap : list byte) (pairsTotal : Z) (infile : list byte) :
  forall (pairsRead : Z) (quieter : OPL2Quieter) (outfile : list byte),
  pairs_loop short_delay long_delay codemap pairsTotal infile pairsRead
    quieter outfile
  = pairs_loop short_delay long_delay codemap pairsTotal
      (take (2 * Z.to_nat (pairsTotal - pairsRead)) infile) pairsRead
      quieter outfile.
Proof.
  induction infile as [|a|a b infile IH] using list_pair_ind;
    intros pairsRead quieter outfile.
  - by rewrite take_nil.
  - destruct (decide (pairsRead < pairsTotal)) as [Hlt | Hge].
    + rewrite take_ge by (cbn; lia). reflexivity.
    + replace (Z.to_nat (pairsTotal - pairsRead)) with 0%nat by lia.
      cbn. rewrite !bool_decide_eq_false_2 by done. reflexivity.
  - destruct (decide (pairsRead < pairsTotal)) as [Hlt | Hge].
    + replace (2 * Z.to_nat (pairsTotal - pairsRead))%nat
        with (S (S (2 * Z.to_nat (pairsTotal - (pairsRead + 1))))) by lia.
      cbn [take]. rewrite !pairs_loop_step.
      rewrite bool_decide_eq_true_2 by done.
      destruct (loop_body _ _ _ _ _ _) as [[packed|e] q1]; [|reflexivity].
      apply IH.
    + replace (Z.to_nat (pairsTotal - pairsRead)) with 0%nat by lia.
      cbn [take Nat.mul]. rewrite pairs_loop_step, pairs_loop_end_of_input.
      rewrite bool_decide_eq_false_2 by done. reflexivity.
Qed.

(** The loop only adds to the output. *)
Lemma pairs_loop_appends (short_delay long_delay : Z) (codemap : list byte)
    (pairsTotal : Z) (infile : list byte) :
  forall (pairsRead : Z) (quieter quieter' : OPL2Quieter)
         (outfile outfile' : list byte) (res : result unit),
  pairs_loop short_delay long_delay codemap pairsTotal infile pairsRead
    quieter outfile
  = (res, quieter', outfile') ->
  exists written : list byte, outfile' = outfile ++ written.
Proof.
  induction infile as [|a|a b infile IH] using list_pair_ind;
    intros pairsRead quieter quieter' outfile outfile' res Hloop.
  - rewrite pairs_loop_end_of_input in Hloop. injection Hloop as <- <- <-.
    exists []. by rewrite app_nil_r.
  - cbn in Hloop. exists []. rewrite app_nil_r.
    case_bool_decide; congruence.
  - rewrite pairs_loop_step in Hloop. case_bool_decide.
    + destruct (loop_body _ _ _ _ _ _) as [[packed|e] q1].
      * apply IH in Hloop as [written ->].
        exists (packed ++ written). by rewrite app_assoc.
      * injection Hloop as <- <- <-. exists []. by rewrite app_nil_r.
    + injection Hloop as <- <- <-. exists []. by rewrite app_nil_r.
Qed.

(** * Further properties of the whole run *)

(** What a run that returns exit code 0 went through. *)
Lemma quieter_main_exit_0 (infile : list byte) (verbose : bool) (level : Z)
    (out : list byte) :
  quieter_main infile verbose level = (Return (0, None), out) ->
  exists (data : header) (quieter' : OPL2Quieter),
    namedunpack (take 26 infile) = Return data /\
    cSignature data = DBRAWOPL /\
    print_info data
      (take (Z.to_nat (iCodemapLength data)) (drop 26 infile)) verbose
    = Return tt /\
    pairs_loop (iShortDelayCode data) (iLongDelayCode data)
      (take (Z.to_nat (iCodemapLength data)) (drop 26 infile))
      (iLengthPairs data)
      (drop (Z.to_nat (iCodemapLength data)) (drop 26 infile)) 0
      (main_quieter level)
      (take 26 infile
       ++ take (Z.to_nat (iCodemapLength data)) (drop 26 infile))
    = (Return tt, quieter', out).
Proof.
  unfold quieter_main.
  destruct (namedunpack (take 26 infile)) as [data|e]; [|discriminate].
  case_bool_decide as Hsig; [discriminate|].
  destruct (print_info data _ verbose) as [[]|e] eqn:Hprint; [|discriminate].
  destruct (pairs_loop _ _ _ _ _ _ _ _) as [[[[]|e] q'] out'] eqn:Hloop;
    [|discriminate].
  intros [= <-]. exists data, q'. done.
Qed.

(** X12: a run that returns exit code 0 has copied the header and the
    codemap as they are, and its output is as long as the input, or as long
    as the header, the codemap and the announced pairs when the input goes
    on behind them. *)
Theorem quieter_main_size (infile : list byte) (verbose : bool) (level : Z)
    (out : list byte) :
  quieter_main infile verbose level = (Return (0, None), out) ->
  exists data : header,
    namedunpack (take 26 infile) = Return data /\
    take (26 + Z.to_nat (iCodemapLength data)) out
    = take (26 + Z.to_nat (iCodemapLength data)) infile /\
    length out =
      (length infile
       `min` (26 + Z.to_nat (iCodemapLength data)
              + 2 * Z.to_nat (iLengthPairs data)))%nat.
Proof.
  intros Hrun.
  apply quieter_main_exit_0 in Hrun as (data & q' & Hdata & _ & _ & Hloop).
  exists data. split; [done|].
  apply namedunpack_inv in Hdata as [Hlen26 _].
  set (cl := Z.to_nat (iCodemapLength data)) in *.
  pose proof (pairs_loop_grows _ _ _ _ _ _ _ _ _ _ Hloop) as Hlen.
  rewrite Z.sub_0_r, !length_app, Hlen26, length_take, !length_drop in Hlen.
  rewrite length_take in Hlen26.
  split; [|lia].
  destruct (decide (26 + cl <= length infile)%nat) as [Hfull | Hshort].
  - destruct (pairs_loop_appends _ _ _ _ _ _ _ _ _ _ _ Hloop)
      as [written ->].
    rewrite take_take_drop.
    rewrite take_app_length' by (rewrite length_take; lia). reflexivity.
  - assert (Hout : length out = length infile) by lia.
    destruct (pairs_loop_appends _ _ _ _ _ _ _ _ _ _ _ Hloop)
      as [written Heq].
    rewrite take_take_drop in Heq.
    assert (written = []) as ->.
    { apply nil_length_inv. rewrite Heq, length_app, length_take in Hout. lia. }
    rewrite app_nil_r in Heq. rewrite Heq, take_take.
    f_equal. lia.
Qed.

Lemma quieter_main_size_witness :
  exists data : header,
    namedunpack (take 26 carrier_file) = Return data /\
    take (26 + Z.to_nat (iCodemapLength data))
      (sample_header x01 ++ sample_codemap ++ [x02; x00])
    = take (26 + Z.to_nat (iCodemapLength data)) carrier_file /\
    length (sample_header x01 ++ sample_codemap ++ [x02; x00]) =
      (length carrier_file
       `min` (26 + Z.to_nat (iCodemapLength data)
              + 2 * Z.to_nat (iLengthPairs data)))%nat.
Proof.
  apply (quieter_main_size carrier_file false 5
           (sample_header x01 ++ sample_codemap ++ [x02; x00])).
  reflexivity.
Defined.

(** ** A second run *)

Lemma write_value_settled (self : OPL2Quieter) (register value value' : Z) :
  (forall l : Z, quiet_function self l = 0) ->
  write_value self register value = Return value' ->
  write_value self register value' = Return value'.
Proof.
  intros Hzero. unfold write_value. case_bool_decide; [|done].
  destruct (dict_getitem LEVEL_TO_ALGORITHM register) as [a|]; [|discriminate].
  cbn. destruct (getitem (registers self) a) as [cell|]; [|discriminate].
  cbn. rewrite !Hzero, Z.land_0_l, !Z.lor_0_r.
  repeat case_bool_decide; intros [= <-]; try reflexivity;
    rewrite <- Z.land_assoc; reflexivity.
Qed.

Lemma write_settled (self self' : OPL2Quieter)
    (register value register' value' : Z) :
  (forall l : Z, quiet_function self l = 0) ->
  write self register value = (Return (register', value'), self') ->
  write self register value' = (Return (register', value'), self').
Proof.
  intros Hzero. unfold write.
  destruct (write_value self register value) as [v|] eqn:Hval; [|discriminate].
  destruct (setitem (registers self) register v) as [regs|] eqn:Hset;
    [|discriminate].
  intros [= <- <- <-].
  rewrite (write_value_settled self register value v) by done.
  by rewrite Hset.
Qed.

Lemma write_quiet_function (self : OPL2Quieter) (register value : Z) :
  quiet_function (snd (write self register value)) = quiet_function self.
Proof.
  unfold write.
  destruct (write_value self register value) as [v|]; [|reflexivity].
  destruct (setitem (registers self) register v); reflexivity.
Qed.

Lemma loop_body_quiet_function (short_delay long_delay : Z)
    (codemap : list byte) (quieter : OPL2Quieter) (chunk0 chunk1 : byte) :
  quiet_function
    (snd (loop_body short_delay long_delay codemap quieter chunk0 chunk1))
  = quiet_function quieter.
Proof.
  unfold loop_body. rewrite masked_register.
  repeat case_bool_decide; try reflexivity.
  destruct (getitem codemap _) as [r|]; [|reflexivity]. cbn.
  pose proof (write_quiet_function quieter (byte_to_Z r) (byte_to_Z chunk1))
    as Hf.
  destruct (write quieter (byte_to_Z r) (byte_to_Z chunk1))
    as [[[reg val]|e] q']; exact Hf.
Qed.

(** Under an attenuation function that is constantly 0, a pair that was
    written is written again as it is, with the same effect on the bank. *)
Lemma loop_body_settled (short_delay long_delay : Z) (codemap : list byte)
    (quieter quieter' : OPL2Quieter) (chunk0 chunk1 out : byte) :
  (forall l : Z, quiet_function quieter l = 0) ->
  loop_body short_delay long_delay codemap quieter chunk0 chunk1
  = (Return [chunk0; out], quieter') ->
  loop_body short_delay long_delay codemap quieter chunk0 out
  = (Return [chunk0; out], quieter').
Proof.
  intros Hzero. unfold loop_body. rewrite masked_register.
  assert (Hskip : forall q : OPL2Quieter,
    (pack_BB (byte_to_Z chunk0) (byte_to_Z chunk1), q)
    = (Return [chunk0; out], quieter') ->
    (pack_BB (byte_to_Z chunk0) (byte_to_Z out), q)
    = (Return [chunk0; out], quieter')).
  { intros q. rewrite !pack_BB_bytes. by intros [= <- <-]. }
  repeat case_bool_decide; cbn; try apply Hskip.
  destruct (getitem codemap _) as [r|]; [|discriminate]. cbn.
  destruct (write quieter (byte_to_Z r) (byte_to_Z chunk1))
    as [[[reg val]|e] q'] eqn:Hw; [|discriminate].
  unfold pack_BB. rewrite pack_B_byte. cbn.
  destruct (pack_B val) as [b|] eqn:Hb; [|discriminate]. cbn.
  intros [= -> <-]. apply pack_B_inv in Hb as <-.
  rewrite (write_settled quieter q' (byte_to_Z r) (byte_to_Z chunk1) reg
             (byte_to_Z out)) by done.
  by rewrite pack_B_byte.
Qed.

Lemma pairs_loop_settled (short_delay long_delay : Z) (codemap : list byte)
    (pairsTotal : Z) (infile : list byte) :
  forall (pairsRead : Z) (quieter quieter' : OPL2Quieter)
         (outfile outfile' : list byte),
  (forall l : Z, quiet_function quieter l = 0) ->
  pairs_loop short_delay long_delay codemap pairsTotal infile pairsRead
    quieter outfile
  = (Return tt, quieter', outfile') ->
  exists written : list byte,
    outfile' = outfile ++ written /\
    forall outfile2 : list byte,
      pairs_loop short_delay long_delay codemap pairsTotal written pairsRead
        quieter outfile2
      = (Return tt, quieter', outfile2 ++ written).
Proof.
  induction infile as [|a|a b infile IH] using list_pair_ind;
    intros pairsRead quieter quieter' outfile outfile' Hzero Hloop.
  - rewrite pairs_loop_end_of_input in Hloop. injection Hloop as <- <-.
    exists []. split; [by rewrite app_nil_r|].
    intros outfile2. by rewrite pairs_loop_end_of_input, app_nil_r.
  - cbn in Hloop. case_bool_decide; [discriminate|].
    injection Hloop as <- <-.
    exists []. split; [by rewrite app_nil_r|].
    intros outfile2. by rewrite pairs_loop_end_of_input, app_nil_r.
  - rewrite pairs_loop_step in Hloop. case_bool_decide as Hcount.
    + destruct (loop_body _ _ _ _ _ _) as [[packed|e] q1] eqn:Hbody;
        [|discriminate].
      pose proof (loop_body_quiet_function short_delay long_delay codemap
                    quieter a b) as Hf.
      rewrite Hbody in Hf. cbn in Hf.
      pose proof Hbody as Hpacked.
      apply loop_body_packed in Hpacked as (out & -> & _).
      apply IH in Hloop as (written & -> & Hagain);
        [|intros l; rewrite Hf; apply Hzero].
      exists (a :: out :: written). split; [by rewrite <- app_assoc|].
      intros outfile2. rewrite pairs_loop_step.
      rewrite bool_decide_eq_true_2 by done.
      rewrite (loop_body_settled _ _ _ _ q1 a b out) by done.
      rewrite Hagain, <- app_assoc. reflexivity.
    + injection Hloop as <- <-.
      exists []. split; [by rewrite app_nil_r|].
      intros outfile2. by rewrite pairs_loop_end_of_input, app_nil_r.
Qed.

(** X13: the output of a run that returns exit code 0 is a fixed point of
    the program: run on it, with any level, the program returns exit code 0
    again and writes the same bytes.  (The attenuation function the program
    builds is constantly 0, so a level once adjusted is adjusted to
    itself.) *)
Theorem quieter_main_again (infile : list byte) (verbose : bool)
    (level level' : Z) (out : list byte) :
  quieter_main infile verbose level = (Return (0, None), out) ->
  quieter_main out verbose level' = (Return (0, None), out).
Proof.
  intros Hrun.
  apply quieter_main_exit_0 in Hrun as (data & q' & Hdata & Hsig & Hprint & Hloop).
  pose proof Hdata as Hlen26. apply namedunpack_inv in Hlen26 as [Hlen26 _].
  set (cl := Z.to_nat (iCodemapLength data)) in *.
  set (codemap := take cl (drop 26 infile)) in *.
  pose proof (pairs_loop_grows _ _ _ _ _ _ _ _ _ _ Hloop) as Hlen.
  apply pairs_loop_settled in Hloop as (written & -> & Hagain);
    [|intros l; apply main_quieter_quiet_function].
  assert (Hcodemap : take cl (codemap ++ written) = codemap /\
                     drop cl (codemap ++ written) = written).
  { destruct (decide (length codemap = cl)) as [Hfull | Hshort].
    - split; [by apply take_app_length' | by apply drop_app_length'].
    - assert (written = []) as ->.
      { apply nil_length_inv. revert Hlen Hshort. unfold codemap.
        rewrite !length_app, !length_take, !length_drop. lia. }
      assert (Hle : (length codemap <= cl)%nat)
        by (unfold codemap; rewrite length_take; lia).
      rewrite app_nil_r, take_ge, drop_ge by done. done. }
  destruct Hcodemap as [Htake Hdrop].
  unfold quieter_main.
  rewrite <- app_assoc, take_app_length', drop_app_length' by done.
  rewrite Hdata. rewrite bool_decide_eq_false_2 by (intros Hne; by apply Hne).
  fold cl. rewrite Htake, Hdrop, Hprint.
  change (main_quieter level') with (main_quieter level).
  rewrite Hagain. by rewrite <- app_assoc.
Qed.

Lemma quieter_main_again_witness :
  quieter_main (sample_header x01 ++ sample_codemap ++ [x02; x00]) false 7
  = (Return (0, None), sample_header x01 ++ sample_codemap ++ [x02; x00]).
Proof.
  apply (quieter_main_again carrier_file false 5 7
           (sample_header x01 ++ sample_codemap ++ [x02; x00])).
  reflexivity.
Defined.

(** ** The header and its report *)

Lemma dict_getitem_absent {V : Type} (l : list (Z * V)) (k : Z) :
  k ∉ l.*1 -> dict_getitem (list_to_map l) k = Raise (KeyError k).
Proof.
  intros Hk. unfold dict_getitem.
  by rewrite (not_elem_of_list_to_map_1 (M := gmap Z) l k Hk).
Qed.

Lemma dict_getitem_present {V : Type} (l : list (Z * V)) (k : Z) :
  k ∈ l.*1 -> exists v : V, dict_getitem (list_to_map l) k = Return v.
Proof.
  intros Hin. unfold dict_getitem.
  destruct (list_to_map l !! k) as [v|] eqn:Hk; [by exists v|].
  by apply (not_elem_of_list_to_map_2 (M := gmap Z)) in Hk.
Qed.

Lemma bind_Return {A B : Type} (a : A) (k : A -> result B) :
  mbind k (Return a) = k a.
Proof.
  reflexivity.
Qed.

Lemma bind_Raise {A B : Type} (e : exn) (k : A -> result B) :
  mbind k (Raise e) = Raise e.
Proof.
  reflexivity.
Qed.

(** The three lookups of [print_info]. *)
Lemma print_info_lookups (data : header) (codemap : list byte)
    (verbose : bool) :
  print_info data codemap verbose =
    if bool_decide (iHardwareType data ∉ [0; 1; 2])
    then Raise (KeyError (iHardwareType data))
    else if bool_decide (iFormat data ∉ [0; 1])
    then Raise (KeyError (iFormat data))
    else if bool_decide (iCompression data ≠ 0)
    then Raise (KeyError (iCompression data))
    else if negb verbose then Return tt
    else print_info_rows codemap (iCodemapLength data - 1)
           (- ((- (iCodemapLength data - 1)) `div` 6)) 6
           (range (- ((- (iCodemapLength data - 1)) `div` 6))).
Proof.
  unfold print_info, HARDWARE_TYPES, FORMAT_TYPES, COMPRESSION_TYPES.
  case_bool_decide as Hhw.
  { rewrite (dict_getitem_absent _ (iHardwareType data)) by exact Hhw.
    apply bind_Raise. }
  destruct (dict_getitem_present
              [(0, "OPL2"%string); (1, "Dual OPL2"%string); (2, "OPL3"%string)]
              (iHardwareType data) Hhw) as [s ->].
  rewrite bind_Return. cbv beta.
  case_bool_decide as Hfmt.
  { rewrite (dict_getitem_absent _ (iFormat data)) by exact Hfmt.
    apply bind_Raise. }
  destruct (dict_getitem_present
              [(0, "Commands and data interleaved"%string);
               (1, "(unknown)"%string)]
              (iFormat data) Hfmt) as [s' ->].
  rewrite bind_Return. cbv beta.
  case_bool_decide as Hcmp.
  { rewrite (dict_getitem_absent _ (iCompression data)); [apply bind_Raise|].
    cbn. intros Hin.
    apply elem_of_cons in Hin as [Heq | Hin]; [done | inversion Hin]. }
  assert (Hin : iCompression data ∈ [(0, "No compression"%string)].*1)
    by (rewrite Hcmp; cbn; constructor).
  destruct (dict_getitem_present _ _ Hin) as [s'' ->].
  rewrite bind_Return. reflexivity.
Qed.

(** X14: without the verbose flag [print_info] fails exactly on a header
    whose hardware type is not 0, 1 or 2, whose format is not 0 or 1, or
    whose compression is not 0, with the [KeyError] of the first such field;
    the codemap plays no part. *)
Theorem print_info_quiet (data : header) (codemap : list byte) :
  print_info data codemap false =
    if bool_decide (iHardwareType data ∉ [0; 1; 2])
    then Raise (KeyError (iHardwareType data))
    else if bool_decide (iFormat data ∉ [0; 1])
    then Raise (KeyError (iFormat data))
    else if bool_decide (iCompression data ≠ 0)
    then Raise (KeyError (iCompression data))
    else Return tt.
Proof.
  apply print_info_lookups.
Qed.

Lemma print_info_cols_in_range (codemap : list byte) (entries rows n : Z)
    (ms : list Z) :
  entries < Z.of_nat (length codemap) ->
  0 <= n -> 0 <= rows ->
  Forall (fun m => 0 <= m) ms ->
  print_info_cols codemap entries rows n ms = Return tt.
Proof.
  intros Hentries Hn Hrows Hms.
  induction Hms as [|m ms Hm _ IH]; [reflexivity|].
  cbn. case_bool_decide as Hl; [reflexivity|].
  rewrite getitem_codemap by nia.
  destruct (lookup_lt_is_Some_2 codemap (Z.to_nat (n + m * rows)))
    as [r ->]; [nia|].
  cbn. exact IH.
Qed.

Lemma print_info_rows_in_range (codemap : list byte) (entries rows cols : Z)
    (ns : list Z) :
  entries < Z.of_nat (length codemap) ->
  0 <= rows ->
  Forall (fun n => 0 <= n) ns ->
  print_info_rows codemap entries rows cols ns = Return tt.
Proof.
  intros Hentries Hrows Hns.
  induction Hns as [|n ns Hn _ IH]; [reflexivity|].
  cbn. rewrite print_info_cols_in_range; try done.
  apply Forall_forall. intros m Hm. apply elem_of_seqZ in Hm. lia.
Qed.

(** X15: on a codemap that has all the entries its header announces, the
    verbose flag makes no difference to the outcome of [print_info]: the
    dump of the codemap stays within it. *)
Theorem print_info_verbose (data : header) (codemap : list byte) :
  iCodemapLength data <= Z.of_nat (length codemap) ->
  print_info data codemap true = print_info data codemap false.
Proof.
  intros Hlen. rewrite !print_info_lookups.
  repeat case_bool_decide; try reflexivity.
  cbn. set (rows := - ((- (iCodemapLength data - 1)) `div` 6)).
  destruct (decide (0 <= rows)) as [Hrows | Hrows].
  - apply print_info_rows_in_range; [lia | done |].
    apply Forall_forall. intros n Hn. apply elem_of_seqZ in Hn. lia.
  - unfold range. rewrite seqZ_nil by lia. reflexivity.
Qed.

Lemma print_info_verbose_witness :
  print_info
    {| cSignature := DBRAWOPL; iVersionMajor := 2; iVersionMinor := 0;
       iLengthPairs := 1; iLengthMS := 16; iHardwareType := 0; iFormat := 0;
       iCompression := 0; iShortDelayCode := 0; iLongDelayCode := 1;
       iCodemapLength := 3 |} sample_codemap true
  = print_info
      {| cSignature := DBRAWOPL; iVersionMajor := 2; iVersionMinor := 0;
         iLengthPairs := 1; iLengthMS := 16; iHardwareType := 0; iFormat := 0;
         iCompression := 0; iShortDelayCode := 0; iLongDelayCode := 1;
         iCodemapLength := 3 |} sample_codemap false.
Proof.
  apply (print_info_verbose
           {| cSignature := DBRAWOPL; iVersionMajor := 2; iVersionMinor := 0;
              iLengthPairs := 1; iLengthMS := 16; iHardwareType := 0;
              iFormat := 0; iCompression := 0; iShortDelayCode := 0;
              iLongDelayCode := 1; iCodemapLength := 3 |} sample_codemap).
  cbn. lia.
Defined.

(** X16: a file with the right signature whose header carries a hardware
    type other than 0, 1, 2, a format other than 0, 1, or a compression
    other than 0 is not transcoded: the run ends with a [KeyError] from
    [print_info], with or without the verbose flag, after the header and the
    codemap were copied and before any pair is read. *)
Theorem quieter_main_unknown_type (infile : list byte) (verbose : bool)
    (level : Z) (data : header) :
  namedunpack (take 26 infile) = Return data ->
  cSignature data = DBRAWOPL ->
  iHardwareType data ∉ [0; 1; 2] \/ iFormat data ∉ [0; 1] \/
  iCompression data ≠ 0 ->
  exists k : Z,
    quieter_main infile verbose level
    = (Raise (KeyError k),
       take (26 + Z.to_nat (iCodemapLength data)) infile).
Proof.
  intros Hdata Hsig Hunknown. unfold quieter_main. rewrite Hdata.
  rewrite bool_decide_eq_false_2 by (intros Hne; by apply Hne).
  rewrite print_info_lookups, take_take_drop.
  case_bool_decide as Hhw; [by eexists|].
  case_bool_decide as Hfmt; [by eexists|].
  case_bool_decide as Hcmp; [by eexists|].
  exfalso. destruct Hunknown as [H | [H | H]]; contradiction.
Qed.

Lemma quieter_main_unknown_type_witness :
  exists k : Z,
    quieter_main
      (DBRAWOPL ++
       [x02; x00; x00; x00; x01; x00; x00; x00; x10; x00; x00; x00;
        x03; x00; x00; x00; x01; x03] ++ sample_codemap ++ [x02; x25])
      false 5
    = (Raise (KeyError k),
       take (26 + Z.to_nat 3)
         (DBRAWOPL ++
          [x02; x00; x00; x00; x01; x00; x00; x00; x10; x00; x00; x00;
           x03; x00; x00; x00; x01; x03] ++ sample_codemap ++ [x02; x25])).
Proof.
  apply (quieter_main_unknown_type
           (DBRAWOPL ++
            [x02; x00; x00; x00; x01; x00; x00; x00; x10; x00; x00; x00;
             x03; x00; x00; x00; x01; x03] ++ sample_codemap ++ [x02; x25])
           false 5
           {| cSignature := DBRAWOPL; iVersionMajor := 2; iVersionMinor := 0;
              iLengthPairs := 1; iLengthMS := 16; iHardwareType := 3;
              iFormat := 0; iCompression := 0; iShortDelayCode := 0;
              iLongDelayCode := 1; iCodemapLength := 3 |}).
  - reflexivity.
  - reflexivity.
  - left. apply (bool_decide_unpack _). vm_compute. exact I.
Defined.

Lemma le_uint_range (bs : list byte) :
  0 <= le_uint bs < 256 ^ Z.of_nat (length bs).
Proof.
  induction bs as [|b bs IH]; [cbn; lia|].
  cbn [le_uint foldr length]. fold (le_uint bs).
  pose proof (byte_to_Z_range b).
  rewrite Nat2Z.inj_succ, Z.pow_succ_r by lia. lia.
Qed.

(** X17: the fields of an unpacked header are within the ranges of their
    types: eight bytes of signature, 16-bit versions, 32-bit pair count and
    duration, and single bytes for the rest, the two delay codes and the
    codemap length among them. *)
Theorem namedunpack_ranges (data : list byte) (h : header) :
  namedunpack data = Return h ->
  length (cSignature h) = 8%nat /\
  0 <= iVersionMajor h < 2 ^ 16 /\ 0 <= iVersionMinor h < 2 ^ 16 /\
  0 <= iLengthPairs h < 2 ^ 32 /\ 0 <= iLengthMS h < 2 ^ 32 /\
  0 <= iHardwareType h < 256 /\ 0 <= iFormat h < 256 /\
  0 <= iCompression h < 256 /\
  0 <= iShortDelayCode h < 256 /\ 0 <= iLongDelayCode h < 256 /\
  0 <= iCodemapLength h < 256.
Proof.
  unfold namedunpack. case_bool_decide as Hlen; [|discriminate].
  intros [= <-]. cbn.
  assert (Hslice : forall start len : nat,
            (start + len <= 26)%nat ->
            0 <= le_uint (slice start len data) < 256 ^ Z.of_nat len).
  { intros start len Hle. pose proof (le_uint_range (slice start len data)) as H.
    unfold slice in *. rewrite length_take, length_drop in H.
    replace (len `min` (length data - start))%nat with len in H by lia.
    exact H. }
  split; [unfold slice; rewrite length_take, length_drop; lia|].
  pose proof (Hslice 8 2 ltac:(lia))%nat.
  pose proof (Hslice 10 2 ltac:(lia))%nat.
  pose proof (Hslice 12 4 ltac:(lia))%nat.
  pose proof (Hslice 16 4 ltac:(lia))%nat.
  pose proof (Hslice 20 1 ltac:(lia))%nat.
  pose proof (Hslice 21 1 ltac:(lia))%nat.
  pose proof (Hslice 22 1 ltac:(lia))%nat.
  pose proof (Hslice 23 1 ltac:(lia))%nat.
  pose proof (Hslice 24 1 ltac:(lia))%nat.
  pose proof (Hslice 25 1 ltac:(lia))%nat.
  change (256 ^ Z.of_nat 2) with (2 ^ 16) in *.
  change (256 ^ Z.of_nat 4) with (2 ^ 32) in *.
  change (256 ^ Z.of_nat 1) with 256 in *.
  repeat split; tauto.
Qed.

Lemma namedunpack_ranges_witness :
  length (cSignature
            {| cSignature := DBRAWOPL; iVersionMajor := 2; iVersionMinor := 0;
               iLengthPairs := 1; iLengthMS := 16; iHardwareType := 0;
               iFormat := 0; iCompression := 0; iShortDelayCode := 0;
               iLongDelayCode := 1; iCodemapLength := 3 |}) = 8%nat /\
  0 <= 2 < 2 ^ 16 /\ 0 <= 0 < 2 ^ 16 /\
  0 <= 1 < 2 ^ 32 /\ 0 <= 16 < 2 ^ 32 /\
  0 <= 0 < 256 /\ 0 <= 0 < 256 /\
  0 <= 0 < 256 /\
  0 <= 0 < 256 /\ 0 <= 1 < 256 /\
  0 <= 3 < 256.
Proof.
  apply (namedunpack_ranges (sample_header x01)
           {| cSignature := DBRAWOPL; iVersionMajor := 2; iVersionMinor := 0;
              iLengthPairs := 1; iLengthMS := 16; iHardwareType := 0;
              iFormat := 0; iCompression := 0; iShortDelayCode := 0;
              iLongDelayCode := 1; iCodemapLength := 3 |}).
  reflexivity.
Defined.

(** ** Runs that end well, runs that cannot start *)

(** X18: an input shorter than the 26 bytes of the header, the empty file
    included, ends the run with the unpacking error before anything is
    written. *)
Theorem quieter_main_short_header (infile : list byte) (verbose : bool)
    (level : Z) :
  (length infile < 26)%nat ->
  quieter_main infile verbose level = (Raise struct_error, []).
Proof.
  intros Hshort. unfold quieter_main, namedunpack.
  rewrite bool_decide_eq_false_2; [reflexivity|].
  rewrite length_take. lia.
Qed.

Lemma quieter_main_short_header_witness :
  quieter_main [] true 5 = (Raise struct_error, []).
Proof.
  apply (quieter_main_short_header [] true 5). cbn. lia.
Defined.

(** The loop ends without an exception on a stream of whole pairs each of
    which is a delay or has a codemap entry that [write] accepts. *)
Lemma pairs_loop_returns (short_delay long_delay : Z) (codemap : list byte)
    (pairsTotal : Z) (infile : list byte) :
  forall (pairsRead : Z) (quieter : OPL2Quieter) (outfile : list byte),
  length (registers quieter) = 256%nat ->
  (exists k : nat, length infile = (2 * k)%nat) ->
  (forall (i : nat) (chunk0 : byte),
     infile !! (2 * i)%nat = Some chunk0 ->
     Z.land (byte_to_Z chunk0) 0x7F = short_delay \/
     Z.land (byte_to_Z chunk0) 0x7F = long_delay \/
     exists r : byte,
       codemap !! Z.to_nat (Z.land (byte_to_Z chunk0) 0x7F) = Some r /\
       byte_to_Z r ∉ [0x46; 0x47; 0x4E; 0x4F]) ->
  exists (quieter' : OPL2Quieter) (outfile' : list byte),
    pairs_loop short_delay long_delay codemap pairsTotal infile pairsRead
      quieter outfile
    = (Return tt, quieter', outfile').
Proof.
  induction infile as [|a|a b infile IH] using list_pair_ind;
    intros pairsRead quieter outfile Hbank [k Heven] Hpairs.
  - rewrite pairs_loop_end_of_input. by do 2 eexists.
  - cbn in Heven. lia.
  - rewrite pairs_loop_step. case_bool_decide; [|by do 2 eexists].
    assert (exists (packed : list byte) (q1 : OPL2Quieter),
              loop_body short_delay long_delay codemap quieter a b
              = (Return packed, q1)) as (packed & q1 & Hbody).
    { destruct (Hpairs 0%nat a eq_refl) as [Hs | [Hl | (r & Hr & Hmapped)]].
      - do 2 eexists. apply loop_body_skips. by left.
      - do 2 eexists. apply loop_body_skips. by right.
      - destruct (decide (Z.land (byte_to_Z a) 0x7F = short_delay)) as [Hs|Hs];
          [do 2 eexists; apply loop_body_skips; by left|].
        destruct (decide (Z.land (byte_to_Z a) 0x7F = long_delay)) as [Hl|Hl];
          [do 2 eexists; apply loop_body_skips; by right|].
        destruct (loop_body_written short_delay long_delay codemap quieter
                    a b r) as (out & q1 & _ & Hbody); try done.
        by do 2 eexists. }
    pose proof (loop_body_length short_delay long_delay codemap quieter a b)
      as Hlen.
    rewrite Hbody in *. cbn in Hlen.
    apply IH.
    + congruence.
    + exists (pred k). cbn in Heven. lia.
    + intros i chunk0 Hi. apply (Hpairs (S i)).
      replace (2 * S i)%nat with (S (S (2 * i))) by lia. exact Hi.
Qed.

(** X19: enough for exit code 0.  A file whose header unpacks, carries the
    signature and passes [print_info], and whose bytes behind the codemap
    are whole pairs, each a delay or with a codemap entry other than 0x46,
    0x47, 0x4E, 0x4F, is transcoded to exit code 0, whatever the number of
    pairs the header announces. *)
Theorem quieter_main_returns (infile : list byte) (verbose : bool) (level : Z)
    (data : header) :
  namedunpack (take 26 infile) = Return data ->
  cSignature data = DBRAWOPL ->
  print_info data
    (take (Z.to_nat (iCodemapLength data)) (drop 26 infile)) verbose
  = Return tt ->
  (exists k : nat,
     length (drop (Z.to_nat (iCodemapLength data)) (drop 26 infile))
     = (2 * k)%nat) ->
  (forall (i : nat) (chunk0 : byte),
     drop (Z.to_nat (iCodemapLength data)) (drop 26 infile) !! (2 * i)%nat
     = Some chunk0 ->
     Z.land (byte_to_Z chunk0) 0x7F = iShortDelayCode data \/
     Z.land (byte_to_Z chunk0) 0x7F = iLongDelayCode data \/
     exists r : byte,
       take (Z.to_nat (iCodemapLength data)) (drop 26 infile)
         !! Z.to_nat (Z.land (byte_to_Z chunk0) 0x7F) = Some r /\
       byte_to_Z r ∉ [0x46; 0x47; 0x4E; 0x4F]) ->
  exists out : list byte,
    quieter_main infile verbose level = (Return (0, None), out).
Proof.
  intros Hdata Hsig Hprint Heven Hpairs.
  destruct (pairs_loop_returns
              (iShortDelayCode data) (iLongDelayCode data)
              (take (Z.to_nat (iCodemapLength data)) (drop 26 infile))
              (iLengthPairs data)
              (drop (Z.to_nat (iCodemapLength data)) (drop 26 infile))
              0 (main_quieter level)
              (take 26 infile
               ++ take (Z.to_nat (iCodemapLength data)) (drop 26 infile)))
    as (q' & out & Hloop); try done.
  exists out. unfold quieter_main. rewrite Hdata.
  rewrite bool_decide_eq_false_2 by (intros Hne; by apply Hne).
  by rewrite Hprint, Hloop.
Qed.

Lemma quieter_main_returns_witness :
  exists out : list byte,
    quieter_main carrier_file false 5 = (Return (0, None), out).
Proof.
  apply (quieter_main_returns carrier_file false 5
           {| cSignature := DBRAWOPL; iVersionMajor := 2; iVersionMinor := 0;
              iLengthPairs := 1; iLengthMS := 16; iHardwareType := 0;
              iFormat := 0; iCompression := 0; iShortDelayCode := 0;
              iLongDelayCode := 1; iCodemapLength := 3 |}).
  - reflexivity.
  - reflexivity.
  - reflexivity.
  - exists 1%nat. reflexivity.
  - intros [|[|i]] chunk0.
    + cbn. intros [= <-]. right; right. exists x43.
      split; [reflexivity|]. apply (bool_decide_unpack _). vm_compute. exact I.
    + cbn. discriminate.
    + replace (2 * S (S i))%nat with (S (S (S (S (2 * i))))) by lia.
      cbn. discriminate.
Defined.

(** ** The codemap dump *)

(** The dump ends as [print_info] does. *)
Lemma dump_cols_result (codemap : list byte) (entries rows n : Z)
    (ms : list Z) :
  snd (dump_cols codemap entries rows n ms)
  = print_info_cols codemap entries rows n ms.
Proof.
  induction ms as [|m ms IH]; [reflexivity|].
  cbn [dump_cols print_info_cols]. case_bool_decide; [reflexivity|].
  destruct (getitem codemap (n + m * rows)) as [r|e]; [|reflexivity].
  rewrite bind_Return. exact IH.
Qed.

Lemma dump_rows_result (codemap : list byte) (entries rows cols : Z)
    (ns : list Z) :
  snd (dump_rows codemap entries rows cols ns)
  = print_info_rows codemap entries rows cols ns.
Proof.
  induction ns as [|n ns IH]; [reflexivity|].
  cbn [dump_rows print_info_rows]. rewrite <- dump_cols_result.
  destruct (snd (dump_cols codemap entries rows n (range cols))) as [[]|e];
    [|reflexivity].
  rewrite bind_Return. exact IH.
Qed.

Lemma print_info_dump_result (data : header) (codemap : list byte)
    (verbose : bool) :
  snd (print_info_dump data codemap verbose) = print_info data codemap verbose.
Proof.
  unfold print_info_dump, print_info.
  destruct (dict_getitem HARDWARE_TYPES (iHardwareType data)) as [s1|e];
    [|reflexivity].
  rewrite !bind_Return.
  destruct (dict_getitem FORMAT_TYPES (iFormat data)) as [s2|e];
    [|reflexivity].
  rewrite !bind_Return.
  destruct (dict_getitem COMPRESSION_TYPES (iCompression data)) as [s3|e];
    [|reflexivity].
  rewrite !bind_Return.
  destruct verbose; [|reflexivity].
  cbn [negb]. apply dump_rows_result.
Qed.

(** A row that ends without an exception has printed, with the entry found
    there, each index [n + m * rows] up to [entries], and nothing else. *)
Lemma dump_cols_seqZ (codemap : list byte) (entries rows n : Z) (k : nat) :
  forall a : Z,
  0 <= rows ->
  snd (dump_cols codemap entries rows n (seqZ a (Z.of_nat k))) = Return tt ->
  (forall m : Z,
     a <= m < a + Z.of_nat k -> n + m * rows <= entries ->
     exists r : byte,
       getitem codemap (n + m * rows) = Return r /\
       (n + m * rows, byte_to_Z r)
       ∈ fst (dump_cols codemap entries rows n (seqZ a (Z.of_nat k)))) /\
  (forall l v : Z,
     (l, v) ∈ fst (dump_cols codemap entries rows n (seqZ a (Z.of_nat k))) ->
     exists (m : Z) (r : byte),
       a <= m < a + Z.of_nat k /\ l = n + m * rows /\ l <= entries /\
       getitem codemap l = Return r /\ v = byte_to_Z r).
Proof.
  induction k as [|k IH]; intros a Hrows.
  - cbn. intros _. split; [intros m ?; lia | by intros l v ?%elem_of_nil].
  - rewrite seqZ_cons by lia.
    replace (Z.pred (Z.of_nat (S k))) with (Z.of_nat k) by lia.
    cbn [dump_cols]. case_bool_decide as Hbreak.
    + intros _. split; [intros m Hm Hle; nia | by intros l v ?%elem_of_nil].
    + destruct (getitem codemap (n + a * rows)) as [r|e] eqn:Hget;
        [|discriminate].
      cbn [fst snd]. intros Hrest.
      destruct (IH (Z.succ a) Hrows Hrest) as [Hcomplete Hsound].
      split.
      * intros m Hm Hle.
        destruct (decide (m = a)) as [-> | Hne].
        -- exists r. split; [done | by left].
        -- destruct (Hcomplete m ltac:(lia) Hle) as (r' & Hr' & Hin).
           exists r'. split; [done | by right].
      * intros l v [[= -> ->] | Hin]%elem_of_cons.
        -- exists a, r. repeat split; (done || lia).
        -- destruct (Hsound l v Hin) as (m & r' & Hm & Hl & Hle & Hr' & Hv).
           exists m, r'. repeat split; (done || lia).
Qed.

(** A dump that ends without an exception has printed its rows in full. *)
Lemma dump_rows_elem (codemap : list byte) (entries rows cols : Z)
    (ns : list Z) :
  snd (dump_rows codemap entries rows cols ns) = Return tt ->
  (forall n : Z,
     n ∈ ns ->
     snd (dump_cols codemap entries rows n (range cols)) = Return tt) /\
  (forall l v : Z,
     (l, v) ∈ fst (dump_rows codemap entries rows cols ns) <->
     exists n : Z,
       n ∈ ns /\ (l, v) ∈ fst (dump_cols codemap entries rows n (range cols))).
Proof.
  induction ns as [|n ns IH].
  - intros _. split; [by intros n ?%elem_of_nil|].
    intros l v. cbn. split; [by intros ?%elem_of_nil|].
    by intros (n & ?%elem_of_nil & _).
  - cbn [dump_rows].
    destruct (snd (dump_cols codemap entries rows n (range cols)))
      as [[]|e] eqn:Hrow; [|discriminate].
    cbn [fst snd]. intros Hrest. destruct (IH Hrest) as [Hrows Helem].
    split.
    + intros n' [-> | Hn']%elem_of_cons; [done | by apply Hrows].
    + intros l v. rewrite elem_of_app, Helem. split.
      * intros [Hl | (n' & Hn' & Hl)].
        -- exists n. split; [by left | done].
        -- exists n'. split; [by right | done].
      * intros (n' & [-> | Hn']%elem_of_cons & Hl); [by left|].
        right. by exists n'.
Qed.

(** What a verbose [print_info] that returns has printed of the codemap. *)
Lemma print_info_dump_elem (data : header) (codemap : list byte) :
  print_info data codemap true = Return tt ->
  (forall l : Z,
     0 <= l <= iCodemapLength data - 1 ->
     l < 6 * - ((- (iCodemapLength data - 1)) `div` 6) ->
     exists r : byte,
       getitem codemap l = Return r /\
       (l, byte_to_Z r) ∈ fst (print_info_dump data codemap true)) /\
  (forall l v : Z,
     (l, v) ∈ fst (print_info_dump data codemap true) ->
     0 <= l <= iCodemapLength data - 1 /\
     l < 6 * - ((- (iCodemapLength data - 1)) `div` 6) /\
     exists r : byte, getitem codemap l = Return r /\ v = byte_to_Z r).
Proof.
  rewrite <- print_info_dump_result. unfold print_info_dump.
  destruct (dict_getitem HARDWARE_TYPES (iHardwareType data)) as [s1|e];
    [|discriminate].
  rewrite !bind_Return.
  destruct (dict_getitem FORMAT_TYPES (iFormat data)) as [s2|e];
    [|discriminate].
  rewrite !bind_Return.
  destruct (dict_getitem COMPRESSION_TYPES (iCompression data)) as [s3|e];
    [|discriminate].
  rewrite !bind_Return. cbn [negb].
  set (entries := iCodemapLength data - 1).
  set (rows := - ((- entries) `div` 6)).
  intros Hdump. apply dump_rows_elem in Hdump as [Hrow Helem].
  assert (Hcols : forall n : Z,
            0 <= n < rows ->
            snd (dump_cols codemap entries rows n (seqZ 0 (Z.of_nat 6)))
            = Return tt).
  { intros n Hn. apply Hrow. unfold range. apply elem_of_seqZ. lia. }
  split.
  - intros l Hl Hlt.
    assert (Hpos : 0 < rows) by lia.
    pose proof (Z.div_mod l rows ltac:(lia)) as Hdm.
    pose proof (Z.mod_pos_bound l rows Hpos) as Hmod.
    assert (0 <= l `div` rows) by (apply Z.div_pos; lia).
    assert (l `div` rows < 6) by (apply Z.div_lt_upper_bound; lia).
    destruct (dump_cols_seqZ codemap entries rows (l `mod` rows) 6 0
                ltac:(lia) (Hcols _ Hmod)) as [Hcomplete _].
    destruct (Hcomplete (l `div` rows) ltac:(lia) ltac:(lia))
      as (r & Hr & Hin).
    replace (l `mod` rows + l `div` rows * rows) with l in Hr, Hin by lia.
    exists r. split; [done|].
    apply Helem. exists (l `mod` rows). split; [|exact Hin].
    unfold range. apply elem_of_seqZ. lia.
  - intros l v Hin. apply Helem in Hin as (n & Hn & Hin).
    unfold range in Hn. apply elem_of_seqZ in Hn.
    destruct (dump_cols_seqZ codemap entries rows n 6 0
                ltac:(lia) (Hcols n ltac:(lia))) as [_ Hsound].
    destruct (Hsound l v Hin) as (m & r & Hm & -> & Hle & Hr & Hv).
    split; [nia|]. split; [nia|]. by exists r.
Qed.

(** X20: when [print_info] returns under the verbose flag, its codemap dump
    has printed, with the entry found there, every index from 0 to the
    codemap length less two, and nothing outside the announced entries; the
    last index (the codemap length less one) is printed exactly when it is
    positive and no multiple of 6: of a codemap of 1, 7, 13, ... entries the
    last entry is never printed. *)
Theorem print_info_dump_last (data : header) (codemap : list byte) :
  print_info data codemap true = Return tt ->
  (forall l : Z,
     0 <= l < iCodemapLength data - 1 ->
     exists r : byte,
       getitem codemap l = Return r /\
       (l, byte_to_Z r) ∈ fst (print_info_dump data codemap true)) /\
  ((exists v : Z,
      (iCodemapLength data - 1, v) ∈ fst (print_info_dump data codemap true))
   <-> 0 < iCodemapLength data - 1 /\ (iCodemapLength data - 1) `mod` 6 ≠ 0) /\
  (forall l v : Z,
     (l, v) ∈ fst (print_info_dump data codemap true) ->
     0 <= l <= iCodemapLength data - 1 /\
     exists r : byte, getitem codemap l = Return r /\ v = byte_to_Z r).
Proof.
  intros Hprint.
  destruct (print_info_dump_elem data codemap Hprint) as [Hcomplete Hsound].
  revert Hcomplete Hsound.
  generalize (fst (print_info_dump data codemap true)).
  generalize (iCodemapLength data - 1).
  intros entries dump Hcomplete Hsound.
  split; [|split].
  - intros l Hl. apply Hcomplete; [lia|].
    Z.div_mod_to_equations. lia.
  - split.
    + intros [v Hin]. apply Hsound in Hin as (Hl & Hlt & _).
      revert Hlt. Z.div_mod_to_equations. lia.
    + intros [Hpos Hmod].
      destruct (Hcomplete entries) as (r & _ & Hin); [lia | |by eexists].
      revert Hmod. Z.div_mod_to_equations. lia.
  - intros l v Hin. apply Hsound in Hin as (Hl & _ & Hr). done.
Qed.

Lemma print_info_dump_last_witness :
  print_info seven_header seven_codemap true = Return tt /\
  fst (print_info_dump seven_header seven_codemap true)
  = [(0, 0x20); (1, 0x21); (2, 0x22); (3, 0x23); (4, 0x24); (5, 0x25)] /\
  ((forall l : Z,
      0 <= l < iCodemapLength seven_header - 1 ->
      exists r : byte,
        getitem seven_codemap l = Return r /\
        (l, byte_to_Z r)
        ∈ fst (print_info_dump seven_header seven_codemap true)) /\
   ((exists v : Z,
       (iCodemapLength seven_header - 1, v)
       ∈ fst (print_info_dump seven_header seven_codemap true))
    <-> 0 < iCodemapLength seven_header - 1 /\
        (iCodemapLength seven_header - 1) `mod` 6 ≠ 0) /\
   (forall l v : Z,
      (l, v) ∈ fst (print_info_dump seven_header seven_codemap true) ->
      0 <= l <= iCodemapLength seven_header - 1 /\
      exists r : byte, getitem seven_codemap l = Return r /\ v = byte_to_Z r)).
Proof.
  split; [reflexivity|]. split; [reflexivity|].
  apply (print_info_dump_last seven_header seven_codemap). reflexivity.
Defined.

(** On a codemap shorter than announced the dump stops at the first missing
    entry: of three announced entries with one present, index 0 is printed
    and the lookup at index 1 raises. *)
Example print_info_dump_short_codemap :
  print_info_dump
    {| cSignature := DBRAWOPL; iVersionMajor := 2; iVersionMinor := 0;
       iLengthPairs := 0; iLengthMS := 0; iHardwareType := 0; iFormat := 0;
       iCompression := 0; iShortDelayCode := 0; iLongDelayCode := 1;
       iCodemapLength := 3 |} [x20] true
  = ([(0, 0x20)], Raise IndexError).
Proof.
  reflexivity.
Qed.
